(** * ChannelEndpoint (mojo/edk/system/channel_endpoint.cc)

    A shallow embedding of [mojo::system::ChannelEndpoint]: the endpoint's
    fields are a record, every member function is a computation in a small
    state-and-failure monad over the endpoint together with the trace of the
    calls it makes into its collaborators (the channel, the client, the log),
    and a failed [DCHECK] ends the computation.  Every member function body
    that runs under [lock_] is one atomic computation; the two functions that
    call out with the lock released ([OnReadMessage], [DetachFromChannel]) are
    split at the places where the lock is dropped. *)

From Stdlib Require Import List Bool Arith NArith Lia.
Import ListNotations.

(** ** Data *)

(** Modelled from the spec: [ChannelEndpointId] is declared in
    channel_endpoint_id.h, which is not part of the sources.  The spec calls a
    routing id "valid (non-null/non-empty)"; the code relies on a
    default-constructed id being invalid (the destructor asserts
    [!local_id_.is_valid()] after [local_id_ = ChannelEndpointId()]).  An id is
    a number, zero being the invalid one. *)
Record ChannelEndpointId : Type := MkChannelEndpointId { id_value : N }.

Definition ChannelEndpointId_default : ChannelEndpointId := MkChannelEndpointId 0.

Definition is_valid (i : ChannelEndpointId) : bool := negb (N.eqb (id_value i) 0).

Arguments is_valid : simpl never.

(** [Channel*] and [ChannelEndpointClient*]: a pointer is [None] (null) or the
    identity of the object it points to. *)
Definition Channel : Type := nat.
Definition ChannelEndpointClient : Type := nat.

(** [scoped_ptr<T>] may be null. *)
Definition scoped_ptr (T : Type) : Type := option T.

(** Modelled from the spec: [MessageInTransit] is declared in
    message_in_transit.h, which is not part of the sources.  Of a message
    "only its identity (source/destination routing ids)" matters here: the two
    ids with their setters, and an opaque body. *)
Record MessageInTransit : Type := MkMessage {
  msg_body : N;
  source_id : ChannelEndpointId;
  destination_id : ChannelEndpointId
}.

Definition set_source_id (i : ChannelEndpointId) (m : MessageInTransit) : MessageInTransit :=
  MkMessage (msg_body m) i (destination_id m).

Definition set_destination_id (i : ChannelEndpointId) (m : MessageInTransit) : MessageInTransit :=
  MkMessage (msg_body m) (source_id m) i.

(** Modelled from the spec: [MessageInTransitQueue] is declared in
    message_in_transit_queue.h, which is not part of the sources.  The spec
    describes the pending queue as "an ordered sequence of not-yet-sent
    messages, insertion order = FIFO send order": [AddMessage] appends at the
    back, [GetMessage] removes the front. *)
Definition MessageInTransitQueue : Type := list MessageInTransit.

Definition IsEmpty (q : MessageInTransitQueue) : bool :=
  match q with [] => true | _ :: _ => false end.

Definition AddMessage (q : MessageInTransitQueue) (m : MessageInTransit) : MessageInTransitQueue :=
  q ++ [m].

Definition GetMessage (q : MessageInTransitQueue) : option (MessageInTransit * MessageInTransitQueue) :=
  match q with [] => None | m :: q' => Some (m, q') end.

(** The fields of the class. *)
Record ChannelEndpoint : Type := MkChannelEndpoint {
  client_ : option ChannelEndpointClient;
  client_port_ : nat;
  channel_ : option Channel;
  local_id_ : ChannelEndpointId;
  remote_id_ : ChannelEndpointId;
  channel_message_queue_ : MessageInTransitQueue;
  is_detached_from_channel_ : bool
}.

(** Calls that leave the endpoint, in the order they are made.  The endpoint
    argument of [Channel::DetachEndpoint] is [this] and is left out. *)
Inductive Event : Type :=
| ChannelWriteMessage (ch : Channel) (m : MessageInTransit) (ok : bool)
| ChannelDetachEndpoint (ch : Channel) (local remote : ChannelEndpointId)
| ClientOnReadMessage (c : ChannelEndpointClient) (port : nat) (m : MessageInTransit) (accepted : bool)
| ClientOnDetachFromChannel (c : ChannelEndpointClient) (port : nat)
| LogWarning
| YieldCurrentThread.

(** What the collaborators answer.  [Channel::WriteMessage] and
    [ChannelEndpointClient::OnReadMessage] return a [bool] that may depend on
    everything that happened before; [SerializeAndCloseDispatchers] rewrites
    the message for a channel in a way this file does not look into. *)
Record Collaborators : Type := MkCollaborators {
  Channel_WriteMessage : list Event -> Channel -> MessageInTransit -> bool;
  Client_OnReadMessage : list Event -> ChannelEndpointClient -> nat -> MessageInTransit -> bool;
  SerializeAndCloseDispatchers : Channel -> MessageInTransit -> MessageInTransit
}.

Record World : Type := MkWorld {
  endpoint : ChannelEndpoint;
  trace : list Event
}.

(** ** The monad *)

Inductive Outcome (A : Type) : Type :=
| Returned (a : A) (w : World)
| DcheckFailed (line : nat)
| OutOfFuel.

Arguments Returned {A} a w.
Arguments DcheckFailed {A} line.
Arguments OutOfFuel {A}.

Definition M (A : Type) : Type := World -> Outcome A.

Definition ret {A : Type} (a : A) : M A := fun w => Returned a w.

Definition bind {A B : Type} (c : M A) (k : A -> M B) : M B :=
  fun w =>
    match c w with
    | Returned a w' => k a w'
    | DcheckFailed line => DcheckFailed line
    | OutOfFuel => OutOfFuel
    end.

Notation "x <- c1 ;; c2" := (bind c1 (fun x => c2))
  (at level 61, c1 at next level, right associativity).
Notation "c1 ;; c2" := (bind c1 (fun _ => c2))
  (at level 61, right associativity).

Definition get : M ChannelEndpoint := fun w => Returned (endpoint w) w.

Definition put (ep : ChannelEndpoint) : M unit :=
  fun w => Returned tt (MkWorld ep (trace w)).

Definition history : M (list Event) := fun w => Returned (trace w) w.

Definition emit (e : Event) : M unit :=
  fun w => Returned tt (MkWorld (endpoint w) (trace w ++ [e])).

(** [DCHECK(cond)] at a source line. *)
Definition DCHECK (line : nat) (cond : bool) : M unit :=
  fun w => if cond then Returned tt w else DcheckFailed line.

(** ** Field updates *)

Definition with_client (c : option ChannelEndpointClient) (port : nat)
  (ep : ChannelEndpoint) : ChannelEndpoint :=
  MkChannelEndpoint c port (channel_ ep) (local_id_ ep) (remote_id_ ep)
    (channel_message_queue_ ep) (is_detached_from_channel_ ep).

Definition with_channel (ch : option Channel) (l r : ChannelEndpointId) (d : bool)
  (ep : ChannelEndpoint) : ChannelEndpoint :=
  MkChannelEndpoint (client_ ep) (client_port_ ep) ch l r
    (channel_message_queue_ ep) d.

Definition with_queue (q : MessageInTransitQueue) (ep : ChannelEndpoint) : ChannelEndpoint :=
  MkChannelEndpoint (client_ ep) (client_port_ ep) (channel_ ep) (local_id_ ep)
    (remote_id_ ep) q (is_detached_from_channel_ ep).

Definition is_some {A : Type} (o : option A) : bool :=
  match o with Some _ => true | None => false end.

(** Pointer comparison [a != b]. *)
Definition ptr_neq (a b : option nat) : bool :=
  match a, b with
  | Some x, Some y => negb (Nat.eqb x y)
  | None, None => false
  | _, _ => true
  end.

Arguments ptr_neq : simpl never.

(** ** The member functions *)

(** The constructor (lines 15-26): [message_queue] is a pointer to a queue
    whose content is swapped into the fresh, empty [channel_message_queue_]. *)
Definition ChannelEndpoint_ctor (client : option ChannelEndpointClient) (client_port : nat)
  (message_queue : option MessageInTransitQueue) : Outcome unit :=
  if is_some client || is_some message_queue then
    Returned tt
      (MkWorld
         (MkChannelEndpoint client client_port None
            ChannelEndpointId_default ChannelEndpointId_default
            (match message_queue with Some q => q | None => [] end)
            false)
         [])
  else DcheckFailed 22.

Section Operations.

Variable env : Collaborators.

(** Lines 174-187.  [lock_.AssertAcquired()] has nothing to check here: every
    computation below that calls this one stands for a locked section. *)
Definition WriteMessageNoLock (message : scoped_ptr MessageInTransit) : M bool :=
  match message with
  | None => DCHECK 175 false ;; ret false
  | Some m =>
      ep <- get ;;
      DCHECK 179 (is_some (channel_ ep)) ;;
      DCHECK 180 (is_valid (local_id_ ep)) ;;
      DCHECK 181 (is_valid (remote_id_ ep)) ;;
      match channel_ ep with
      | None => DCHECK 179 false ;; ret false
      | Some ch =>
          let m1 := SerializeAndCloseDispatchers env ch m in
          let m2 := set_source_id (local_id_ ep) m1 in
          let m3 := set_destination_id (remote_id_ ep) m2 in
          tr <- history ;;
          let ok := Channel_WriteMessage env tr ch m3 in
          emit (ChannelWriteMessage ch m3 ok) ;;
          ret ok
      end
  end.

(** Lines 189-199. *)
Definition ResetChannelNoLock : M unit :=
  ep <- get ;;
  DCHECK 190 (is_some (channel_ ep)) ;;
  DCHECK 191 (is_valid (local_id_ ep)) ;;
  DCHECK 192 (is_valid (remote_id_ ep)) ;;
  DCHECK 193 (negb (is_detached_from_channel_ ep)) ;;
  put (with_channel None ChannelEndpointId_default ChannelEndpointId_default true ep).

(** Lines 28-44. *)
Definition EnqueueMessage (message : scoped_ptr MessageInTransit) : M bool :=
  DCHECK 29 (is_some message) ;;
  ep <- get ;;
  if negb (is_some (channel_ ep)) then
    match message with
    | None => DCHECK 29 false ;; ret false
    | Some m =>
        put (with_queue (AddMessage (channel_message_queue_ ep) m) ep) ;;
        ret true
    end
  else WriteMessageNoLock message.

(** Lines 46-56. *)
Definition ReplaceClient (client : option ChannelEndpointClient) (client_port : nat) : M bool :=
  DCHECK 48 (is_some client) ;;
  ep <- get ;;
  DCHECK 51 (is_some (client_ ep)) ;;
  DCHECK 52 (ptr_neq client (client_ ep) || negb (Nat.eqb client_port (client_port_ ep))) ;;
  put (with_client client client_port ep) ;;
  ret (negb (is_detached_from_channel_ ep)).

(** Lines 58-67. *)
Definition DetachFromClient : M unit :=
  ep <- get ;;
  DCHECK 60 (is_some (client_ ep)) ;;
  put (with_client None (client_port_ ep) ep) ;;
  match channel_ ep with
  | None => ret tt
  | Some ch =>
      emit (ChannelDetachEndpoint ch (local_id_ ep) (remote_id_ ep)) ;;
      ResetChannelNoLock
  end.

(** The loop of lines 84-87.  Every round removes the front of the queue, so
    [fuel] rounds empty a queue of [fuel] messages; [AttachAndRun] passes the
    length of the queue. *)
Fixpoint AttachAndRun_drain (fuel : nat) : M unit :=
  ep <- get ;;
  if IsEmpty (channel_message_queue_ ep) then ret tt
  else
    match fuel with
    | O => fun _ => OutOfFuel
    | S fuel' =>
        match GetMessage (channel_message_queue_ ep) with
        | None => ret tt
        | Some (m, q') =>
            put (with_queue q' ep) ;;
            ok <- WriteMessageNoLock (Some m) ;;
            (if negb ok then emit LogWarning else ret tt) ;;
            AttachAndRun_drain fuel'
        end
    end.

(** Lines 69-93. *)
Definition AttachAndRun (channel : option Channel) (local_id remote_id : ChannelEndpointId) : M unit :=
  DCHECK 72 (is_some channel) ;;
  DCHECK 73 (is_valid local_id) ;;
  DCHECK 74 (is_valid remote_id) ;;
  ep <- get ;;
  DCHECK 77 (negb (is_some (channel_ ep))) ;;
  DCHECK 78 (negb (is_valid (local_id_ ep))) ;;
  DCHECK 79 (negb (is_valid (remote_id_ ep))) ;;
  put (with_channel channel local_id remote_id (is_detached_from_channel_ ep) ep) ;;
  AttachAndRun_drain (length (channel_message_queue_ ep)) ;;
  ep' <- get ;;
  if negb (is_some (client_ ep')) then
    match channel_ ep' with
    | None => DCHECK 72 false
    | Some ch =>
        emit (ChannelDetachEndpoint ch (local_id_ ep') (remote_id_ ep')) ;;
        ResetChannelNoLock
    end
  else ret tt.

(** [DetachFromChannel], lines 137-165: the part under the lock returns the
    snapshot of the client, the part after it notifies that client. *)
Definition DetachFromChannel_locked : M (option ChannelEndpointClient * nat) :=
  ep <- get ;;
  let snapshot :=
    match client_ ep with
    | Some c => (Some c, client_port_ ep)
    | None => (None, 0)
    end in
  (if is_some (channel_ ep) then ResetChannelNoLock
   else DCHECK 155 (is_detached_from_channel_ ep)) ;;
  ret snapshot.

Definition DetachFromChannel_notify (snapshot : option ChannelEndpointClient * nat) : M unit :=
  match fst snapshot with
  | Some c => emit (ClientOnDetachFromChannel c (snd snapshot))
  | None => ret tt
  end.

Definition DetachFromChannel : M unit :=
  snapshot <- DetachFromChannel_locked ;;
  DetachFromChannel_notify snapshot.

(** The destructor, lines 167-172. *)
Definition ChannelEndpoint_dtor : M unit :=
  ep <- get ;;
  DCHECK 168 (negb (is_some (client_ ep))) ;;
  DCHECK 169 (negb (is_some (channel_ ep))) ;;
  DCHECK 170 (negb (is_valid (local_id_ ep))) ;;
  DCHECK 171 (negb (is_valid (remote_id_ ep))).

(** [OnReadMessage], lines 95-135.  The function holds the lock only while it
    takes its snapshot, so other threads run between its steps.  A frame holds
    the locals [client] and [client_port] and the place the thread is at. *)
Inductive ReadPc : Type :=
| AtLoopTop
| AtClientCall
| AtYield
| ReadReturned (consumed : bool).

Record ReadFrame : Type := MkReadFrame {
  rd_message : MessageInTransit;
  rd_client : option ChannelEndpointClient;
  rd_client_port : nat;
  rd_pc : ReadPc
}.

Definition OnReadMessage_enter (message : MessageInTransit) : ReadFrame :=
  MkReadFrame message None 0 AtLoopTop.

Definition at_pc (pc : ReadPc) (f : ReadFrame) : ReadFrame :=
  MkReadFrame (rd_message f) (rd_client f) (rd_client_port f) pc.

Definition OnReadMessage_step (f : ReadFrame) : M ReadFrame :=
  match rd_pc f with
  | AtLoopTop =>
      (* lines 111-126, under the lock *)
      ep <- get ;;
      if negb (is_some (channel_ ep)) || negb (is_some (client_ ep)) then
        ret (at_pc (ReadReturned false) f)
      else
        DCHECK 121 (ptr_neq (client_ ep) (rd_client f)
                    || negb (Nat.eqb (client_port_ ep) (rd_client_port f))) ;;
        ret (MkReadFrame (rd_message f) (client_ ep) (client_port_ ep) AtClientCall)
  | AtClientCall =>
      (* lines 128-131, lock released *)
      match rd_client f with
      | None => DCHECK 128 false ;; ret f
      | Some c =>
          tr <- history ;;
          let accepted := Client_OnReadMessage env tr c (rd_client_port f) (rd_message f) in
          emit (ClientOnReadMessage c (rd_client_port f) (rd_message f) accepted) ;;
          if accepted then ret (at_pc (ReadReturned true) f)
          else ret (at_pc AtYield f)
      end
  | AtYield =>
      (* line 133 *)
      emit YieldCurrentThread ;;
      ret (at_pc AtLoopTop f)
  | ReadReturned _ => ret f
  end.

(** [OnReadMessage] run with no other thread in between. *)
Fixpoint OnReadMessage_loop (fuel : nat) (f : ReadFrame) : M bool :=
  match rd_pc f with
  | ReadReturned consumed => ret consumed
  | _ =>
      match fuel with
      | O => fun _ => OutOfFuel
      | S fuel' => f' <- OnReadMessage_step f ;; OnReadMessage_loop fuel' f'
      end
  end.

Definition OnReadMessage (fuel : nat) (message : MessageInTransit) : M bool :=
  OnReadMessage_loop fuel (OnReadMessage_enter message).

(** Calls made by the other threads; each runs as one step.  The notification
    at the end of [DetachFromChannel] touches no field of the endpoint. *)
Inductive Call : Type :=
| CallEnqueueMessage (message : scoped_ptr MessageInTransit)
| CallReplaceClient (client : option ChannelEndpointClient) (client_port : nat)
| CallDetachFromClient
| CallAttachAndRun (channel : option Channel) (local_id remote_id : ChannelEndpointId)
| CallDetachFromChannel.

Definition run_call (c : Call) : M unit :=
  match c with
  | CallEnqueueMessage message => EnqueueMessage message ;; ret tt
  | CallReplaceClient client client_port => ReplaceClient client client_port ;; ret tt
  | CallDetachFromClient => DetachFromClient
  | CallAttachAndRun channel local_id remote_id => AttachAndRun channel local_id remote_id
  | CallDetachFromChannel => DetachFromChannel
  end.

Fixpoint run_calls (cs : list Call) : M unit :=
  match cs with
  | [] => ret tt
  | c :: cs' => run_call c ;; run_calls cs'
  end.

(** An interleaving of one [OnReadMessage] with the calls of other threads. *)
Inductive Turn : Type :=
| ReaderTurn
| OtherThread (c : Call).

Fixpoint run_schedule (s : list Turn) (f : ReadFrame) : M ReadFrame :=
  match s with
  | [] => ret f
  | ReaderTurn :: s' => f' <- OnReadMessage_step f ;; run_schedule s' f'
  | OtherThread c :: s' => run_call c ;; run_schedule s' f
  end.

(** A batch of [EnqueueMessage] calls, with their results. *)
Fixpoint enqueue_all (ms : list MessageInTransit) : M (list bool) :=
  match ms with
  | [] => ret []
  | m :: ms' =>
      ok <- EnqueueMessage (Some m) ;;
      oks <- enqueue_all ms' ;;
      ret (ok :: oks)
  end.

End Operations.

(** ** What a trace shows *)

(** The messages handed to [Channel::WriteMessage], oldest first. *)
Fixpoint channel_writes (tr : list Event) : list (Channel * MessageInTransit) :=
  match tr with
  | [] => []
  | ChannelWriteMessage ch m _ :: tr' => (ch, m) :: channel_writes tr'
  | _ :: tr' => channel_writes tr'
  end.

(** The calls of [Channel::DetachEndpoint]. *)
Fixpoint detach_endpoint_calls (tr : list Event)
  : list (Channel * ChannelEndpointId * ChannelEndpointId) :=
  match tr with
  | [] => []
  | ChannelDetachEndpoint ch l r :: tr' => (ch, l, r) :: detach_endpoint_calls tr'
  | _ :: tr' => detach_endpoint_calls tr'
  end.

(** The client calls that returned true: who took which message. *)
Fixpoint deliveries (tr : list Event)
  : list (ChannelEndpointClient * nat * MessageInTransit) :=
  match tr with
  | [] => []
  | ClientOnReadMessage c port m true :: tr' => (c, port, m) :: deliveries tr'
  | _ :: tr' => deliveries tr'
  end.

(** The calls of the client's [OnDetachFromChannel]. *)
Fixpoint detach_notifications (tr : list Event) : list (ChannelEndpointClient * nat) :=
  match tr with
  | [] => []
  | ClientOnDetachFromChannel c port :: tr' => (c, port) :: detach_notifications tr'
  | _ :: tr' => detach_notifications tr'
  end.

Fixpoint failed_writes (tr : list Event) : nat :=
  match tr with
  | [] => 0
  | ChannelWriteMessage _ _ false :: tr' => S (failed_writes tr')
  | _ :: tr' => failed_writes tr'
  end.

Fixpoint warnings (tr : list Event) : nat :=
  match tr with
  | [] => 0
  | LogWarning :: tr' => S (warnings tr')
  | _ :: tr' => warnings tr'
  end.

(** What [WriteMessageNoLock] turns a message into before it writes it. *)
Definition stamp (env : Collaborators) (ch : Channel) (l r : ChannelEndpointId)
  (m : MessageInTransit) : MessageInTransit :=
  set_destination_id r (set_source_id l (SerializeAndCloseDispatchers env ch m)).

(** The events of draining queue [q] on channel [ch] after history [tr]: one
    write per message and a warning after each write that failed. *)
Fixpoint drain_events (env : Collaborators) (tr : list Event) (ch : Channel)
  (l r : ChannelEndpointId) (q : list MessageInTransit) : list Event :=
  match q with
  | [] => []
  | m :: q' =>
      let ok := Channel_WriteMessage env tr ch (stamp env ch l r m) in
      let evs := ChannelWriteMessage ch (stamp env ch l r m) ok
                 :: (if ok then [] else [LogWarning]) in
      evs ++ drain_events env (tr ++ evs) ch l r q'
  end.

(** The events of sending [ms] one by one on an attached endpoint. *)
Fixpoint send_events (env : Collaborators) (tr : list Event) (ch : Channel)
  (l r : ChannelEndpointId) (ms : list MessageInTransit) : list Event :=
  match ms with
  | [] => []
  | m :: ms' =>
      let e := ChannelWriteMessage ch (stamp env ch l r m)
                 (Channel_WriteMessage env tr ch (stamp env ch l r m)) in
      e :: send_events env (tr ++ [e]) ch l r ms'
  end.

(** ** The states of the spec *)

(** "[local_id], [remote_id]: valid if and only if [channel] is attached; both
    become invalid together." *)
Definition ids_match_channel (ep : ChannelEndpoint) : bool :=
  Bool.eqb (is_some (channel_ ep)) (is_valid (local_id_ ep))
  && Bool.eqb (is_some (channel_ ep)) (is_valid (remote_id_ ep)).

(** "[channel] is attached iff both [local_id] and [remote_id] are valid." *)
Definition channel_iff_both_ids (ep : ChannelEndpoint) : bool :=
  Bool.eqb (is_some (channel_ ep)) (is_valid (local_id_ ep) && is_valid (remote_id_ ep)).

(** "Once set, [channel], [local_id], [remote_id] stay cleared." *)
Definition latch_respected (ep : ChannelEndpoint) : bool :=
  implb (is_detached_from_channel_ ep)
        (negb (is_some (channel_ ep)) && negb (is_valid (local_id_ ep))
         && negb (is_valid (remote_id_ ep))).

(** The channel axis: Unattached, Attached, Detached. *)
Definition Unattached (ep : ChannelEndpoint) : Prop :=
  channel_ ep = None /\ is_valid (local_id_ ep) = false /\ is_valid (remote_id_ ep) = false
  /\ is_detached_from_channel_ ep = false.

Definition Attached (ep : ChannelEndpoint) (ch : Channel) : Prop :=
  channel_ ep = Some ch /\ is_valid (local_id_ ep) = true /\ is_valid (remote_id_ ep) = true
  /\ is_detached_from_channel_ ep = false.

Definition Detached (ep : ChannelEndpoint) : Prop :=
  channel_ ep = None /\ is_valid (local_id_ ep) = false /\ is_valid (remote_id_ ep) = false
  /\ is_detached_from_channel_ ep = true.

Definition is_AttachAndRun (c : Call) : bool :=
  match c with CallAttachAndRun _ _ _ => true | _ => false end.

(** What [AttachAndRun] does to an endpoint that passes its [DCHECK]s: with a
    client it stays attached; without one it is detached at once. *)
Definition after_AttachAndRun (ch : Channel) (l r : ChannelEndpointId)
  (ep : ChannelEndpoint) : ChannelEndpoint :=
  match client_ ep with
  | Some _ => with_queue [] (with_channel (Some ch) l r (is_detached_from_channel_ ep) ep)
  | None => with_queue [] (with_channel None ChannelEndpointId_default
                             ChannelEndpointId_default true ep)
  end.

Definition detach_notice (ep : ChannelEndpoint) : list Event :=
  match client_ ep with
  | Some c => [ClientOnDetachFromChannel c (client_port_ ep)]
  | None => []
  end.

Definition reset_channel (ep : ChannelEndpoint) : ChannelEndpoint :=
  with_channel None ChannelEndpointId_default ChannelEndpointId_default true ep.

(** An endpoint with no channel or no client is out of reach of reads. *)
Definition unreachable (ep : ChannelEndpoint) : bool :=
  negb (is_some (channel_ ep)) || negb (is_some (client_ ep)).

(** What the successful deliveries made for a frame may be: none while the
    call is under way or after it gave up, one after a client accepted. *)
Definition delivered_by (f : ReadFrame)
  (d : list (ChannelEndpointClient * nat * MessageInTransit)) : Prop :=
  match rd_pc f with
  | ReadReturned true =>
      exists c, rd_client f = Some c /\ d = [(c, rd_client_port f, rd_message f)]
  | _ => d = []
  end.

(** ** Concrete endpoints and collaborators *)

Definition id1 : ChannelEndpointId := MkChannelEndpointId 1.
Definition id2 : ChannelEndpointId := MkChannelEndpointId 2.
Definition id3 : ChannelEndpointId := MkChannelEndpointId 3.
Definition id4 : ChannelEndpointId := MkChannelEndpointId 4.

Definition msg (n : N) : MessageInTransit :=
  MkMessage n ChannelEndpointId_default ChannelEndpointId_default.

(** Collaborators that accept everything. *)
Definition accepting : Collaborators :=
  MkCollaborators (fun _ _ _ => true) (fun _ _ _ _ => true) (fun _ m => m).

(** A channel whose every write fails. *)
Definition failing_channel : Collaborators :=
  MkCollaborators (fun _ _ _ => false) (fun _ _ _ _ => true) (fun _ m => m).

(** Client 1 has been replaced and refuses; client 2 accepts. *)
Definition client_2_only : Collaborators :=
  MkCollaborators (fun _ _ _ => true) (fun _ c _ _ => Nat.eqb c 2) (fun _ m => m).

(** [ChannelEndpoint(client 1, port 0, no queue)]. *)
Definition fresh_endpoint : World :=
  MkWorld (MkChannelEndpoint (Some 1) 0 None ChannelEndpointId_default
             ChannelEndpointId_default [] false) [].

(** The same after [AttachAndRun(channel 7, id1, id2)]. *)
Definition attached_endpoint : World :=
  MkWorld (MkChannelEndpoint (Some 1) 0 (Some 7) id1 id2 [] false) [].

(** ... after [DetachFromChannel()]. *)
Definition channel_gone : World :=
  MkWorld (MkChannelEndpoint (Some 1) 0 None ChannelEndpointId_default
             ChannelEndpointId_default [] true)
          [ClientOnDetachFromChannel 1 0].

(** ... or after [DetachFromClient()] instead. *)
Definition client_gone : World :=
  MkWorld (MkChannelEndpoint None 0 None ChannelEndpointId_default
             ChannelEndpointId_default [] true)
          [ChannelDetachEndpoint 7 id1 id2].

(** [ChannelEndpoint(no client, port 0, queue of two messages)]. *)
Definition queued_endpoint : World :=
  MkWorld (MkChannelEndpoint None 0 None ChannelEndpointId_default
             ChannelEndpointId_default [msg 10; msg 11] false) [].

(** A read of message 9 takes its snapshot of client 1, another thread swaps
    in client 2, client 1 refuses, the read yields, snapshots client 2 and
    delivers there. *)
Definition swap_during_read : list Turn :=
  [ReaderTurn; OtherThread (CallReplaceClient (Some 2) 1);
   ReaderTurn; ReaderTurn; ReaderTurn; ReaderTurn].

(** ** Counting calls and events *)

Definition is_EnqueueMessage (c : Call) : bool :=
  match c with CallEnqueueMessage _ => true | _ => false end.

(** The calls of the other threads in a schedule, in order. *)
Fixpoint calls_of (s : list Turn) : list Call :=
  match s with
  | [] => []
  | ReaderTurn :: s' => calls_of s'
  | OtherThread c :: s' => c :: calls_of s'
  end.

Definition count_calls (p : Call -> bool) (cs : list Call) : nat :=
  length (filter p cs).

(** "[pending_queue] is non-empty only while [channel] is absent." *)
Definition queue_only_when_unattached (ep : ChannelEndpoint) : bool :=
  negb (is_some (channel_ ep)) || IsEmpty (channel_message_queue_ ep).

(** A call into the channel carries two valid routing ids. *)
Definition routed (e : Event) : bool :=
  match e with
  | ChannelWriteMessage _ m _ => is_valid (source_id m) && is_valid (destination_id m)
  | ChannelDetachEndpoint _ l r => is_valid l && is_valid r
  | _ => true
  end.

(** One registration with a channel, if there is a channel. *)
Definition registrations (ep : ChannelEndpoint) : nat :=
  if is_some (channel_ ep) then 1 else 0.

(** What the destructor asserts (lines 168-171). *)
Definition destructible (ep : ChannelEndpoint) : bool :=
  negb (is_some (client_ ep)) && negb (is_some (channel_ ep))
  && negb (is_valid (local_id_ ep)) && negb (is_valid (remote_id_ ep)).

(** A life in six turns: a message is enqueued, the channel attaches, a read
    is delivered, a second message is sent, the client detaches. *)
Definition attach_read_detach : list Turn :=
  [OtherThread (CallEnqueueMessage (Some (msg 10)));
   OtherThread (CallAttachAndRun (Some 7) id1 id2);
   ReaderTurn; ReaderTurn;
   OtherThread (CallEnqueueMessage (Some (msg 11)));
   OtherThread CallDetachFromClient].

(** The same life up to the read. *)
Definition attach_and_read : list Turn :=
  [OtherThread (CallEnqueueMessage (Some (msg 10)));
   OtherThread (CallAttachAndRun (Some 7) id1 id2);
   ReaderTurn; ReaderTurn].

Definition is_DetachFromChannel (c : Call) : bool :=
  match c with CallDetachFromChannel => true | _ => false end.

(** [channel_gone] after a second [AttachAndRun(channel 7, id3, id4)]. *)
Definition reattached_endpoint : World :=
  MkWorld (MkChannelEndpoint (Some 1) 0 (Some 7) id3 id4 [] true)
          [ClientOnDetachFromChannel 1 0].

(** ** Proof tools *)

Ltac unfold_ops :=
  unfold EnqueueMessage, ReplaceClient, DetachFromClient, DetachFromChannel,
    DetachFromChannel_locked, DetachFromChannel_notify, ResetChannelNoLock,
    WriteMessageNoLock, ChannelEndpoint_dtor, bind, ret, get, put, history, emit, DCHECK.

Ltac destruct_world w :=
  let ep := fresh "ep" in
  let tr := fresh "tr" in
  destruct w as [ep tr];
  destruct ep as [? ? ? ? ? ? ?];
  simpl in *.

Ltac break_match :=
  match goal with
  | |- context [match ?x with _ => _ end] => destruct x eqn:?
  | H : context [match ?x with _ => _ end] |- _ => destruct x eqn:?
  end.

(** Case analysis on everything a hypothesis branches on. *)
Ltac break_hyps :=
  repeat match goal with
         | H' : context [match ?x with _ => _ end] |- _ => destruct x eqn:?
         end;
  try discriminate;
  repeat match goal with
         | H' : Returned _ _ = Returned _ _ |- _ => inversion H'; subst; clear H'
         end.

Lemma channel_writes_app (a b : list Event) :
  channel_writes (a ++ b) = channel_writes a ++ channel_writes b.
Proof.
  induction a as [|e a IH]; simpl; [reflexivity|].
  destruct e; simpl; rewrite IH; reflexivity.
Qed.

Lemma deliveries_app (a b : list Event) :
  deliveries (a ++ b) = deliveries a ++ deliveries b.
Proof.
  induction a as [|e a IH]; simpl; [reflexivity|].
  destruct e as [| | c p m [|] | | |]; simpl; rewrite IH; reflexivity.
Qed.

Lemma detach_notifications_app (a b : list Event) :
  detach_notifications (a ++ b) = detach_notifications a ++ detach_notifications b.
Proof.
  induction a as [|e a IH]; simpl; [reflexivity|].
  destruct e; simpl; rewrite IH; reflexivity.
Qed.

Lemma detach_endpoint_calls_app (a b : list Event) :
  detach_endpoint_calls (a ++ b) = detach_endpoint_calls a ++ detach_endpoint_calls b.
Proof.
  induction a as [|e a IH]; simpl; [reflexivity|].
  destruct e; simpl; rewrite IH; reflexivity.
Qed.

Lemma failed_writes_app (a b : list Event) :
  failed_writes (a ++ b) = failed_writes a + failed_writes b.
Proof.
  induction a as [|e a IH]; simpl; [reflexivity|].
  destruct e as [ch m [|] | | | | |]; simpl; rewrite IH; reflexivity.
Qed.

Lemma warnings_app (a b : list Event) :
  warnings (a ++ b) = warnings a + warnings b.
Proof.
  induction a as [|e a IH]; simpl; [reflexivity|].
  destruct e; simpl; rewrite IH; reflexivity.
Qed.

Lemma stamp_source env ch l r m : source_id (stamp env ch l r m) = l.
Proof. reflexivity. Qed.

Lemma stamp_destination env ch l r m : destination_id (stamp env ch l r m) = r.
Proof. reflexivity. Qed.

Lemma ids_match_attached (ep : ChannelEndpoint) (ch : Channel) :
  ids_match_channel ep = true ->
  channel_ ep = Some ch ->
  is_valid (local_id_ ep) = true /\ is_valid (remote_id_ ep) = true.
Proof.
  unfold ids_match_channel. intros H Hch. rewrite Hch in H. cbn [is_some] in H.
  apply andb_true_iff in H. destruct H as [Hl Hr].
  apply Bool.eqb_prop in Hl, Hr. split; congruence.
Qed.

Lemma ids_match_unattached (ep : ChannelEndpoint) :
  ids_match_channel ep = true ->
  channel_ ep = None ->
  is_valid (local_id_ ep) = false /\ is_valid (remote_id_ ep) = false.
Proof.
  unfold ids_match_channel. intros H Hch. rewrite Hch in H. cbn [is_some] in H.
  apply andb_true_iff in H. destruct H as [Hl Hr].
  apply Bool.eqb_prop in Hl, Hr. split; congruence.
Qed.

Lemma ids_match_gives_iff (ep : ChannelEndpoint) :
  ids_match_channel ep = true -> channel_iff_both_ids ep = true.
Proof.
  unfold ids_match_channel, channel_iff_both_ids. intros H.
  apply andb_true_iff in H. destruct H as [Hl Hr].
  apply Bool.eqb_prop in Hl, Hr. rewrite <- Hl, <- Hr.
  destruct (is_some (channel_ ep)); reflexivity.
Qed.

(** ** [EnqueueMessage] *)

Section EnqueueMessageFacts.

Variable env : Collaborators.

Lemma EnqueueMessage_unattached (w : World) (m : MessageInTransit) :
  channel_ (endpoint w) = None ->
  EnqueueMessage env (Some m) w =
    Returned true
      (MkWorld (with_queue (channel_message_queue_ (endpoint w) ++ [m]) (endpoint w))
               (trace w)).
Proof.
  intros Hch. unfold_ops. simpl. rewrite Hch. reflexivity.
Qed.

Lemma EnqueueMessage_attached (w : World) (m : MessageInTransit) (ch : Channel) :
  channel_ (endpoint w) = Some ch ->
  is_valid (local_id_ (endpoint w)) = true ->
  is_valid (remote_id_ (endpoint w)) = true ->
  let m' := stamp env ch (local_id_ (endpoint w)) (remote_id_ (endpoint w)) m in
  let ok := Channel_WriteMessage env (trace w) ch m' in
  EnqueueMessage env (Some m) w =
    Returned ok (MkWorld (endpoint w) (trace w ++ [ChannelWriteMessage ch m' ok])).
Proof.
  destruct_world w. intros Hch Hl Hr. subst. unfold_ops. simpl.
  rewrite Hl, Hr. reflexivity.
Qed.

(** C2: on an endpoint without a channel [EnqueueMessage] appends the message
    to the pending queue and returns true, touching nothing else; on an
    endpoint with a channel it stamps the message with [local_id_] as source
    and [remote_id_] as destination, passes it to the channel's
    [WriteMessage], and returns what that call returned. *)
Theorem EnqueueMessage_queues_or_forwards (w : World) (m : MessageInTransit) :
  ids_match_channel (endpoint w) = true ->
  match channel_ (endpoint w) with
  | None =>
      EnqueueMessage env (Some m) w =
        Returned true
          (MkWorld (with_queue (AddMessage (channel_message_queue_ (endpoint w)) m) (endpoint w))
                   (trace w))
  | Some ch =>
      exists m' : MessageInTransit,
        m' = set_destination_id (remote_id_ (endpoint w))
               (set_source_id (local_id_ (endpoint w))
                  (SerializeAndCloseDispatchers env ch m))
        /\ source_id m' = local_id_ (endpoint w)
        /\ destination_id m' = remote_id_ (endpoint w)
        /\ EnqueueMessage env (Some m) w =
             Returned (Channel_WriteMessage env (trace w) ch m')
               (MkWorld (endpoint w)
                  (trace w ++ [ChannelWriteMessage ch m' (Channel_WriteMessage env (trace w) ch m')]))
  end.
Proof.
  intros Hinv. destruct (channel_ (endpoint w)) as [ch|] eqn:Hch.
  - destruct (ids_match_attached _ _ Hinv Hch) as [Hl Hr].
    eexists. split; [reflexivity|]. split; [reflexivity|]. split; [reflexivity|].
    apply (EnqueueMessage_attached w m ch Hch Hl Hr).
  - apply EnqueueMessage_unattached. exact Hch.
Qed.

End EnqueueMessageFacts.

(** ** [AttachAndRun] *)

Section AttachAndRunFacts.

Variable env : Collaborators.

Lemma with_queue_same (ep : ChannelEndpoint) :
  with_queue (channel_message_queue_ ep) ep = ep.
Proof. destruct ep; reflexivity. Qed.

(** The loop empties the queue front to back, whatever the writes return. *)
Lemma AttachAndRun_drain_spec (ch : Channel) (q : list MessageInTransit) :
  forall (fuel : nat) (ep : ChannelEndpoint) (tr : list Event),
    channel_ ep = Some ch ->
    is_valid (local_id_ ep) = true ->
    is_valid (remote_id_ ep) = true ->
    channel_message_queue_ ep = q ->
    length q <= fuel ->
    AttachAndRun_drain env fuel (MkWorld ep tr) =
      Returned tt
        (MkWorld (with_queue [] ep)
           (tr ++ drain_events env tr ch (local_id_ ep) (remote_id_ ep) q)).
Proof.
  induction q as [|m q IH]; intros fuel ep tr Hch Hl Hr Hq Hfuel.
  - destruct fuel; simpl; unfold bind, get, ret; simpl; rewrite Hq; simpl;
      rewrite <- Hq, with_queue_same, app_nil_r; reflexivity.
  - destruct fuel as [|fuel]; [simpl in Hfuel; lia|].
    simpl in Hfuel. apply le_S_n in Hfuel.
    cbn [AttachAndRun_drain]. unfold bind at 1. unfold get at 1. cbn [endpoint].
    rewrite Hq. cbn [IsEmpty GetMessage].
    unfold bind at 1. unfold put at 1. cbn [trace].
    assert (Hw : WriteMessageNoLock env (Some m) (MkWorld (with_queue q ep) tr) =
                 Returned (Channel_WriteMessage env tr ch
                             (stamp env ch (local_id_ ep) (remote_id_ ep) m))
                   (MkWorld (with_queue q ep)
                      (tr ++ [ChannelWriteMessage ch
                                (stamp env ch (local_id_ ep) (remote_id_ ep) m)
                                (Channel_WriteMessage env tr ch
                                   (stamp env ch (local_id_ ep) (remote_id_ ep) m))]))).
    { unfold_ops. simpl. rewrite Hch. simpl. rewrite Hl, Hr. reflexivity. }
    unfold bind at 1. rewrite Hw. clear Hw.
    set (m' := stamp env ch (local_id_ ep) (remote_id_ ep) m).
    destruct (Channel_WriteMessage env tr ch m') eqn:Hok.
    + unfold bind at 1. cbn [negb ret].
      rewrite (IH fuel (with_queue q ep)); try assumption; try reflexivity.
      cbn [drain_events]. fold m'. rewrite Hok. cbn [app].
      simpl. rewrite <- app_assoc. reflexivity.
    + unfold bind at 1. cbn [negb]. unfold emit at 1. cbn [endpoint trace].
      rewrite (IH fuel (with_queue q ep)); try assumption; try reflexivity.
      cbn [drain_events]. fold m'. rewrite Hok.
      simpl. repeat rewrite <- app_assoc. reflexivity.
Qed.

Lemma channel_writes_drain_events (ch : Channel) (l r : ChannelEndpointId)
  (q : list MessageInTransit) :
  forall tr, channel_writes (drain_events env tr ch l r q) =
             map (fun m => (ch, stamp env ch l r m)) q.
Proof.
  induction q as [|m q IH]; intros tr; [reflexivity|].
  cbn [drain_events map]. rewrite channel_writes_app, IH.
  destruct (Channel_WriteMessage env tr ch (stamp env ch l r m)); reflexivity.
Qed.

Lemma warnings_drain_events (ch : Channel) (l r : ChannelEndpointId)
  (q : list MessageInTransit) :
  forall tr, warnings (drain_events env tr ch l r q) =
             failed_writes (drain_events env tr ch l r q).
Proof.
  induction q as [|m q IH]; intros tr; [reflexivity|].
  cbn [drain_events]. rewrite warnings_app, failed_writes_app, IH.
  destruct (Channel_WriteMessage env tr ch (stamp env ch l r m)); reflexivity.
Qed.

Lemma detach_endpoint_calls_drain_events (ch : Channel) (l r : ChannelEndpointId)
  (q : list MessageInTransit) :
  forall tr, detach_endpoint_calls (drain_events env tr ch l r q) = [].
Proof.
  induction q as [|m q IH]; intros tr; [reflexivity|].
  cbn [drain_events]. rewrite detach_endpoint_calls_app, IH.
  destruct (Channel_WriteMessage env tr ch (stamp env ch l r m)); reflexivity.
Qed.

(** [AttachAndRun] on every input: which [DCHECK] stops it, or where it ends. *)
Lemma AttachAndRun_eval (w : World) (channel : option Channel) (l r : ChannelEndpointId) :
  AttachAndRun env channel l r w =
    match channel with
    | None => DcheckFailed 72
    | Some ch =>
        if negb (is_valid l) then DcheckFailed 73
        else if negb (is_valid r) then DcheckFailed 74
        else if is_some (channel_ (endpoint w)) then DcheckFailed 77
        else if is_valid (local_id_ (endpoint w)) then DcheckFailed 78
        else if is_valid (remote_id_ (endpoint w)) then DcheckFailed 79
        else if negb (is_some (client_ (endpoint w))) && is_detached_from_channel_ (endpoint w)
        then DcheckFailed 193
        else
          Returned tt
            (MkWorld (after_AttachAndRun ch l r (endpoint w))
               (trace w
                ++ drain_events env (trace w) ch l r (channel_message_queue_ (endpoint w))
                ++ match client_ (endpoint w) with
                   | Some _ => []
                   | None => [ChannelDetachEndpoint ch l r]
                   end))
    end.
Proof.
  destruct_world w. destruct channel as [ch|]; [|reflexivity].
  unfold AttachAndRun.
  unfold bind at 1. unfold DCHECK at 1. cbn [is_some].
  unfold bind at 1. unfold DCHECK at 1.
  destruct (is_valid l) eqn:Hl; cbn [negb]; [|reflexivity].
  unfold bind at 1. unfold DCHECK at 1.
  destruct (is_valid r) eqn:Hr; cbn [negb]; [|reflexivity].
  unfold bind at 1. unfold get at 1. cbn [endpoint channel_ local_id_ remote_id_].
  unfold bind at 1. unfold DCHECK at 1.
  destruct channel_0 as [ch0|]; cbn [is_some negb]; [reflexivity|].
  unfold bind at 1. unfold DCHECK at 1.
  destruct (is_valid local_id_0) eqn:Hl0; cbn [negb]; [reflexivity|].
  unfold bind at 1. unfold DCHECK at 1.
  destruct (is_valid remote_id_0) eqn:Hr0; cbn [negb]; [reflexivity|].
  unfold bind at 1. unfold put at 1. cbn [trace].
  unfold bind at 1.
  rewrite (AttachAndRun_drain_spec ch channel_message_queue_0);
    [ | reflexivity | assumption | assumption | reflexivity | cbn; lia ].
  unfold after_AttachAndRun. cbn.
  destruct client_0 as [c|]; cbn.
  - unfold ret. rewrite app_nil_r. reflexivity.
  - unfold_ops. cbn. rewrite Hl, Hr. cbn.
    destruct is_detached_from_channel_0; cbn; [reflexivity|].
    rewrite <- app_assoc. reflexivity.
Qed.

Lemma AttachAndRun_spec (w : World) (ch : Channel) (l r : ChannelEndpointId) :
  is_valid l = true ->
  is_valid r = true ->
  channel_ (endpoint w) = None ->
  is_valid (local_id_ (endpoint w)) = false ->
  is_valid (remote_id_ (endpoint w)) = false ->
  (client_ (endpoint w) = None -> is_detached_from_channel_ (endpoint w) = false) ->
  AttachAndRun env (Some ch) l r w =
    Returned tt
      (MkWorld (after_AttachAndRun ch l r (endpoint w))
         (trace w ++ drain_events env (trace w) ch l r (channel_message_queue_ (endpoint w))
          ++ match client_ (endpoint w) with
             | Some _ => []
             | None => [ChannelDetachEndpoint ch l r]
             end)).
Proof.
  intros Hl Hr Hch Hl0 Hr0 Hlatch. rewrite AttachAndRun_eval.
  rewrite Hl, Hr, Hch, Hl0, Hr0. cbn [negb is_some].
  destruct (client_ (endpoint w)); cbn [is_some negb andb]; [reflexivity|].
  rewrite (Hlatch eq_refl). reflexivity.
Qed.

End AttachAndRunFacts.

(** ** Batches of [EnqueueMessage] *)

Section EnqueueAllFacts.

Variable env : Collaborators.

Lemma enqueue_all_unattached (ms : list MessageInTransit) :
  forall w : World,
    channel_ (endpoint w) = None ->
    enqueue_all env ms w =
      Returned (repeat true (length ms))
        (MkWorld (with_queue (channel_message_queue_ (endpoint w) ++ ms) (endpoint w))
                 (trace w)).
Proof.
  induction ms as [|m ms IH]; intros w Hch.
  - simpl. unfold ret. rewrite app_nil_r, with_queue_same. destruct w; reflexivity.
  - cbn [enqueue_all]. unfold bind at 1.
    rewrite (EnqueueMessage_unattached env w m Hch).
    unfold bind at 1. rewrite IH by exact Hch.
    cbn. unfold ret. unfold with_queue. cbn. rewrite <- app_assoc. reflexivity.
Qed.

Lemma channel_writes_send_events (ch : Channel) (l r : ChannelEndpointId)
  (ms : list MessageInTransit) :
  forall tr, channel_writes (send_events env tr ch l r ms) =
             map (fun m => (ch, stamp env ch l r m)) ms.
Proof.
  induction ms as [|m ms IH]; intros tr; [reflexivity|].
  cbn [send_events channel_writes map]. rewrite IH. reflexivity.
Qed.

Lemma enqueue_all_attached (ch : Channel) (ms : list MessageInTransit) :
  forall w : World,
    channel_ (endpoint w) = Some ch ->
    is_valid (local_id_ (endpoint w)) = true ->
    is_valid (remote_id_ (endpoint w)) = true ->
    exists oks : list bool,
      enqueue_all env ms w =
        Returned oks
          (MkWorld (endpoint w)
             (trace w ++ send_events env (trace w) ch (local_id_ (endpoint w))
                           (remote_id_ (endpoint w)) ms)).
Proof.
  induction ms as [|m ms IH]; intros w Hch Hl Hr.
  - exists []. simpl. unfold ret. rewrite app_nil_r. destruct w; reflexivity.
  - cbn [enqueue_all]. unfold bind at 1.
    rewrite (EnqueueMessage_attached env w m ch Hch Hl Hr). cbv zeta.
    match goal with
    | |- exists _, bind _ _ ?w1 = _ =>
        destruct (IH w1 Hch Hl Hr) as [oks Hoks]
    end.
    eexists. unfold bind at 1. rewrite Hoks. unfold ret.
    cbn [endpoint trace send_events]. rewrite <- app_assoc. reflexivity.
Qed.

End EnqueueAllFacts.

(** ** Order of the writes *)

Section WriteOrder.

Variable env : Collaborators.

(** C1: messages enqueued while the endpoint is unattached reach the channel,
    at [AttachAndRun], in the order they were enqueued (behind whatever the
    queue already held), nothing is written before the attach, and what is
    enqueued after the attach is written after all of them. *)
Theorem pending_messages_written_in_fifo_order
  (w : World) (ms ms' : list MessageInTransit) (ch : Channel) (l r : ChannelEndpointId) :
  Unattached (endpoint w) ->
  is_valid l = true ->
  is_valid r = true ->
  exists (w1 w2 w3 : World) (oks' : list bool),
    enqueue_all env ms w = Returned (repeat true (length ms)) w1
    /\ channel_message_queue_ (endpoint w1) = channel_message_queue_ (endpoint w) ++ ms
    /\ channel_writes (trace w1) = channel_writes (trace w)
    /\ AttachAndRun env (Some ch) l r w1 = Returned tt w2
    /\ channel_writes (trace w2) =
         channel_writes (trace w)
         ++ map (fun m => (ch, stamp env ch l r m)) (channel_message_queue_ (endpoint w) ++ ms)
    /\ enqueue_all env ms' w2 = Returned oks' w3
    /\ channel_writes (trace w3) =
         channel_writes (trace w2)
         ++ match client_ (endpoint w) with
            | Some _ => map (fun m => (ch, stamp env ch l r m)) ms'
            | None => []
            end.
Proof.
  intros (Hch & Hl0 & Hr0 & Hlatch) Hl Hr.
  pose proof (enqueue_all_unattached env ms w Hch) as H1.
  set (w1 := MkWorld (with_queue (channel_message_queue_ (endpoint w) ++ ms) (endpoint w))
                     (trace w)) in *.
  assert (H2 := AttachAndRun_spec env w1 ch l r Hl Hr Hch Hl0 Hr0 (fun _ => Hlatch)).
  match type of H2 with _ = Returned tt ?w => set (w2 := w) in * end.
  assert (Hw2 : channel_writes (trace w2) =
                channel_writes (trace w)
                ++ map (fun m => (ch, stamp env ch l r m))
                     (channel_message_queue_ (endpoint w) ++ ms)).
  { subst w2 w1. cbn [trace endpoint with_queue channel_message_queue_ client_].
    rewrite !channel_writes_app, channel_writes_drain_events.
    destruct (client_ (endpoint w)); cbn; rewrite app_nil_r; reflexivity. }
  destruct (client_ (endpoint w)) as [c|] eqn:Hc.
  - assert (Hch2 : channel_ (endpoint w2) = Some ch).
    { subst w2 w1. cbn. unfold after_AttachAndRun. cbn. rewrite Hc. reflexivity. }
    assert (Hl2 : local_id_ (endpoint w2) = l).
    { subst w2 w1. cbn. unfold after_AttachAndRun. cbn. rewrite Hc. reflexivity. }
    assert (Hr2 : remote_id_ (endpoint w2) = r).
    { subst w2 w1. cbn. unfold after_AttachAndRun. cbn. rewrite Hc. reflexivity. }
    destruct (enqueue_all_attached env ch ms' w2 Hch2) as [oks' H3];
      [rewrite Hl2; exact Hl | rewrite Hr2; exact Hr |].
    rewrite Hl2, Hr2 in H3.
    eexists w1, w2, _, oks'. repeat split; try eassumption; try reflexivity.
    cbn [trace]. rewrite channel_writes_app, channel_writes_send_events. reflexivity.
  - assert (Hch2 : channel_ (endpoint w2) = None).
    { subst w2 w1. cbn. unfold after_AttachAndRun. cbn. rewrite Hc. reflexivity. }
    pose proof (enqueue_all_unattached env ms' w2 Hch2) as H3.
    eexists w1, w2, _, _. repeat split; try eassumption; try reflexivity.
    cbn [trace]. rewrite app_nil_r. reflexivity.
Qed.

(** C8: a write that fails while [AttachAndRun] drains the pending queue is
    answered with a warning and nothing else: every queued message is written,
    in order, whatever the channel returns, and the queue ends empty.  With no
    client the endpoint then calls [DetachEndpoint] with the ids it was just
    given and resets, ending detached; with a client it stays attached. *)
Theorem AttachAndRun_drains_past_failed_writes
  (w : World) (ch : Channel) (l r : ChannelEndpointId) :
  Unattached (endpoint w) ->
  is_valid l = true ->
  is_valid r = true ->
  exists w' : World,
    AttachAndRun env (Some ch) l r w = Returned tt w'
    /\ channel_writes (trace w') =
         channel_writes (trace w)
         ++ map (fun m => (ch, stamp env ch l r m)) (channel_message_queue_ (endpoint w))
    /\ warnings (trace w') + failed_writes (trace w) =
         warnings (trace w) + failed_writes (trace w')
    /\ channel_message_queue_ (endpoint w') = []
    /\ client_ (endpoint w') = client_ (endpoint w)
    /\ match client_ (endpoint w) with
       | None =>
           (exists tr0, trace w' = tr0 ++ [ChannelDetachEndpoint ch l r])
           /\ detach_endpoint_calls (trace w') =
                detach_endpoint_calls (trace w) ++ [(ch, l, r)]
           /\ Detached (endpoint w')
       | Some _ =>
           detach_endpoint_calls (trace w') = detach_endpoint_calls (trace w)
           /\ Attached (endpoint w') ch
           /\ local_id_ (endpoint w') = l
           /\ remote_id_ (endpoint w') = r
       end.
Proof.
  intros (Hch & Hl0 & Hr0 & Hlatch) Hl Hr.
  eexists. split; [apply AttachAndRun_spec; auto|].
  cbn [trace endpoint]. unfold after_AttachAndRun.
  rewrite !channel_writes_app, !warnings_app, !failed_writes_app,
    !detach_endpoint_calls_app, channel_writes_drain_events, warnings_drain_events,
    detach_endpoint_calls_drain_events.
  destruct (client_ (endpoint w)) as [c|] eqn:Hc; cbn.
  - rewrite !app_nil_r, Hc, Hlatch. repeat split; try assumption; try lia.
  - rewrite !app_nil_r, Hc. repeat split; try lia.
    rewrite app_assoc. eexists. reflexivity.
Qed.

End WriteOrder.

(** ** The client side and the two detaches *)

Section DetachFacts.

Variable env : Collaborators.

Lemma ResetChannelNoLock_eval (w : World) :
  ResetChannelNoLock w =
    if negb (is_some (channel_ (endpoint w))) then DcheckFailed 190
    else if negb (is_valid (local_id_ (endpoint w))) then DcheckFailed 191
    else if negb (is_valid (remote_id_ (endpoint w))) then DcheckFailed 192
    else if is_detached_from_channel_ (endpoint w) then DcheckFailed 193
    else Returned tt (MkWorld (reset_channel (endpoint w)) (trace w)).
Proof.
  destruct_world w. unfold_ops. cbn.
  destruct channel_0; cbn; [|reflexivity].
  destruct (is_valid local_id_0); cbn; [|reflexivity].
  destruct (is_valid remote_id_0); cbn; [|reflexivity].
  destruct is_detached_from_channel_0; reflexivity.
Qed.

Lemma DetachFromClient_eval (w : World) :
  DetachFromClient w =
    match client_ (endpoint w) with
    | None => DcheckFailed 60
    | Some _ =>
        match channel_ (endpoint w) with
        | None =>
            Returned tt
              (MkWorld (with_client None (client_port_ (endpoint w)) (endpoint w)) (trace w))
        | Some ch =>
            if negb (is_valid (local_id_ (endpoint w))) then DcheckFailed 191
            else if negb (is_valid (remote_id_ (endpoint w))) then DcheckFailed 192
            else if is_detached_from_channel_ (endpoint w) then DcheckFailed 193
            else
              Returned tt
                (MkWorld
                   (reset_channel (with_client None (client_port_ (endpoint w)) (endpoint w)))
                   (trace w ++ [ChannelDetachEndpoint ch (local_id_ (endpoint w))
                                  (remote_id_ (endpoint w))]))
        end
    end.
Proof.
  destruct_world w. unfold_ops. cbn.
  destruct client_0 as [c|]; cbn; [|reflexivity].
  destruct channel_0 as [ch|]; cbn; [|reflexivity].
  destruct (is_valid local_id_0); cbn; [|reflexivity].
  destruct (is_valid remote_id_0); cbn; [|reflexivity].
  destruct is_detached_from_channel_0; reflexivity.
Qed.

Lemma DetachFromChannel_eval (w : World) :
  DetachFromChannel w =
    match channel_ (endpoint w) with
    | Some _ =>
        if negb (is_valid (local_id_ (endpoint w))) then DcheckFailed 191
        else if negb (is_valid (remote_id_ (endpoint w))) then DcheckFailed 192
        else if is_detached_from_channel_ (endpoint w) then DcheckFailed 193
        else
          Returned tt
            (MkWorld (reset_channel (endpoint w)) (trace w ++ detach_notice (endpoint w)))
    | None =>
        if is_detached_from_channel_ (endpoint w)
        then Returned tt (MkWorld (endpoint w) (trace w ++ detach_notice (endpoint w)))
        else DcheckFailed 155
    end.
Proof.
  destruct_world w. unfold detach_notice. unfold_ops. cbn.
  destruct channel_0 as [ch|]; cbn.
  - destruct (is_valid local_id_0); cbn; [|reflexivity].
    destruct (is_valid remote_id_0); cbn; [|reflexivity].
    destruct is_detached_from_channel_0; cbn; [reflexivity|].
    destruct client_0; cbn; [reflexivity|]. rewrite app_nil_r. reflexivity.
  - destruct is_detached_from_channel_0; cbn; [|reflexivity].
    destruct client_0; cbn; [reflexivity|]. rewrite app_nil_r. reflexivity.
Qed.

Lemma ReplaceClient_eval (w : World) (client : option ChannelEndpointClient) (port : nat) :
  ReplaceClient client port w =
    if negb (is_some client) then DcheckFailed 48
    else if negb (is_some (client_ (endpoint w))) then DcheckFailed 51
    else if negb (ptr_neq client (client_ (endpoint w))
                  || negb (Nat.eqb port (client_port_ (endpoint w))))
    then DcheckFailed 52
    else
      Returned (negb (is_detached_from_channel_ (endpoint w)))
        (MkWorld (with_client client port (endpoint w)) (trace w)).
Proof.
  destruct_world w. unfold_ops. cbn.
  destruct client; cbn; [|reflexivity].
  destruct client_0; cbn; [|reflexivity].
  destruct (ptr_neq (Some c) (Some c0) || negb (port =? client_port_0)); reflexivity.
Qed.

Lemma EnqueueMessage_eval (w : World) (message : scoped_ptr MessageInTransit) :
  EnqueueMessage env message w =
    match message with
    | None => DcheckFailed 29
    | Some m =>
        match channel_ (endpoint w) with
        | None =>
            Returned true
              (MkWorld (with_queue (channel_message_queue_ (endpoint w) ++ [m]) (endpoint w))
                       (trace w))
        | Some ch =>
            if negb (is_valid (local_id_ (endpoint w))) then DcheckFailed 180
            else if negb (is_valid (remote_id_ (endpoint w))) then DcheckFailed 181
            else
              let m' := stamp env ch (local_id_ (endpoint w)) (remote_id_ (endpoint w)) m in
              Returned (Channel_WriteMessage env (trace w) ch m')
                (MkWorld (endpoint w)
                   (trace w ++ [ChannelWriteMessage ch m' (Channel_WriteMessage env (trace w) ch m')]))
        end
    end.
Proof.
  destruct message as [m|]; [|reflexivity].
  destruct (channel_ (endpoint w)) as [ch|] eqn:Hch.
  - destruct (is_valid (local_id_ (endpoint w))) eqn:Hl;
      [destruct (is_valid (remote_id_ (endpoint w))) eqn:Hr|].
    + apply EnqueueMessage_attached; assumption.
    + destruct_world w. subst. unfold_ops. cbn. rewrite Hl, Hr. reflexivity.
    + destruct_world w. subst. unfold_ops. cbn. rewrite Hl. reflexivity.
  - apply EnqueueMessage_unattached. exact Hch.
Qed.

Lemma latch_respected_attached (ep : ChannelEndpoint) (ch : Channel) :
  latch_respected ep = true ->
  channel_ ep = Some ch ->
  is_detached_from_channel_ ep = false.
Proof.
  unfold latch_respected. intros H Hch. rewrite Hch in H.
  destruct (is_detached_from_channel_ ep); [discriminate H | reflexivity].
Qed.

(** C6: on an endpoint with a client and a channel, [DetachFromClient] clears
    the client, calls the channel's [DetachEndpoint] once, with the endpoint's
    [local_id_] and [remote_id_], and resets the channel side, leaving no
    channel and two invalid ids; without a channel it clears the client and
    does nothing else. *)
Theorem DetachFromClient_unregisters_from_channel (w : World) (c : ChannelEndpointClient) :
  client_ (endpoint w) = Some c ->
  ids_match_channel (endpoint w) = true ->
  latch_respected (endpoint w) = true ->
  match channel_ (endpoint w) with
  | Some ch =>
      exists w' : World,
        DetachFromClient w = Returned tt w'
        /\ trace w' = trace w ++ [ChannelDetachEndpoint ch (local_id_ (endpoint w))
                                    (remote_id_ (endpoint w))]
        /\ detach_endpoint_calls (trace w') =
             detach_endpoint_calls (trace w)
             ++ [(ch, local_id_ (endpoint w), remote_id_ (endpoint w))]
        /\ endpoint w' =
             MkChannelEndpoint None (client_port_ (endpoint w)) None
               ChannelEndpointId_default ChannelEndpointId_default
               (channel_message_queue_ (endpoint w)) true
        /\ is_valid (local_id_ (endpoint w')) = false
        /\ is_valid (remote_id_ (endpoint w')) = false
  | None =>
      DetachFromClient w =
        Returned tt
          (MkWorld (with_client None (client_port_ (endpoint w)) (endpoint w)) (trace w))
  end.
Proof.
  intros Hc Hids Hlatch. rewrite DetachFromClient_eval, Hc.
  destruct (channel_ (endpoint w)) as [ch|] eqn:Hch; [|reflexivity].
  destruct (ids_match_attached _ _ Hids Hch) as [Hl Hr].
  rewrite Hl, Hr, (latch_respected_attached _ _ Hlatch Hch). cbn [negb].
  eexists. split; [reflexivity|]. cbn [trace endpoint].
  rewrite detach_endpoint_calls_app. repeat split.
Qed.

(** C7, as the code has it: [ReplaceClient] with a non-null client that
    differs from the current (client, port) pair, on an endpoint that has a
    client, stores the new pair and returns the negation of
    [is_detached_from_channel_]: true on an endpoint that is attached and also
    on one that has not been attached yet, false exactly after the channel
    side was torn down. *)
Theorem ReplaceClient_returns_not_detached
  (w : World) (c0 c : ChannelEndpointClient) (port : nat) :
  client_ (endpoint w) = Some c0 ->
  c <> c0 \/ port <> client_port_ (endpoint w) ->
  exists b : bool,
    ReplaceClient (Some c) port w =
      Returned b (MkWorld (with_client (Some c) port (endpoint w)) (trace w))
    /\ b = negb (is_detached_from_channel_ (endpoint w))
    /\ (Unattached (endpoint w) -> b = true)
    /\ (forall ch, Attached (endpoint w) ch -> b = true)
    /\ (Detached (endpoint w) -> b = false)
    /\ (b = false <-> is_detached_from_channel_ (endpoint w) = true).
Proof.
  intros Hc Hdiff. rewrite ReplaceClient_eval, Hc. cbn [is_some negb].
  assert (Hneq : ptr_neq (Some c) (Some c0)
                 || negb (port =? client_port_ (endpoint w)) = true).
  { unfold ptr_neq. apply orb_true_iff. destruct Hdiff as [H|H]; [left|right];
      apply negb_true_iff, Nat.eqb_neq; exact H. }
  rewrite Hneq. cbn [negb].
  eexists. split; [reflexivity|]. split; [reflexivity|].
  repeat split.
  - intros (_ & _ & _ & H). rewrite H. reflexivity.
  - intros ch (_ & _ & _ & H). rewrite H. reflexivity.
  - intros (_ & _ & _ & H). rewrite H. reflexivity.
  - destruct (is_detached_from_channel_ (endpoint w)); [reflexivity | discriminate].
  - intros H. rewrite H. reflexivity.
Qed.


End DetachFacts.

(** ** What every call preserves *)

Section Invariants.

Variable env : Collaborators.

Ltac call_inv H :=
  cbn [run_call] in H; unfold bind, ret in H;
  try rewrite EnqueueMessage_eval in H;
  try rewrite ReplaceClient_eval in H;
  try rewrite DetachFromClient_eval in H;
  try rewrite AttachAndRun_eval in H;
  try rewrite DetachFromChannel_eval in H;
  cbv zeta in H;
  break_hyps.

Lemma deliveries_drain_events (ch : Channel) (l r : ChannelEndpointId)
  (q : list MessageInTransit) :
  forall tr, deliveries (drain_events env tr ch l r q) = [].
Proof.
  induction q as [|m q IH]; intros tr; [reflexivity|].
  cbn [drain_events]. rewrite deliveries_app, IH.
  destruct (Channel_WriteMessage env tr ch (stamp env ch l r m)); reflexivity.
Qed.

(** No call of another thread hands a message to a client. *)
Lemma run_call_deliveries (c : Call) (w w' : World) :
  run_call env c w = Returned tt w' ->
  deliveries (trace w') = deliveries (trace w).
Proof.
  intros H. destruct c; call_inv H; cbn [trace];
    rewrite ?deliveries_app, ?deliveries_drain_events; unfold detach_notice;
    repeat break_match; cbn; rewrite ?app_nil_r; reflexivity.
Qed.

(** The latch is never cleared. *)
Lemma run_call_latch_stays_set (c : Call) (w w' : World) :
  run_call env c w = Returned tt w' ->
  is_detached_from_channel_ (endpoint w) = true ->
  is_detached_from_channel_ (endpoint w') = true.
Proof.
  intros H Hd. destruct c; call_inv H; cbn; try assumption; try reflexivity;
    try congruence.
  all: unfold after_AttachAndRun; destruct (client_ (endpoint w)); cbn; auto.
Qed.

(** Each id is valid exactly when the channel is there. *)
Lemma run_call_ids_match_channel (c : Call) (w w' : World) :
  run_call env c w = Returned tt w' ->
  ids_match_channel (endpoint w) = true ->
  ids_match_channel (endpoint w') = true.
Proof.
  intros H Hinv. destruct c; call_inv H; cbn; try assumption; try reflexivity.
  all: unfold after_AttachAndRun, ids_match_channel;
    repeat match goal with
           | H : negb _ = false |- _ => apply negb_false_iff in H
           end;
    destruct (client_ (endpoint w)); cbn;
    repeat match goal with H : is_valid _ = true |- _ => rewrite H end; reflexivity.
Qed.

(** The channel is there exactly when both ids are valid. *)
Lemma run_call_channel_iff_both_ids (c : Call) (w w' : World) :
  run_call env c w = Returned tt w' ->
  channel_iff_both_ids (endpoint w) = true ->
  channel_iff_both_ids (endpoint w') = true.
Proof.
  intros H Hinv. destruct c; call_inv H; cbn; try assumption; try reflexivity.
  all: unfold after_AttachAndRun, channel_iff_both_ids;
    repeat match goal with
           | H : negb _ = false |- _ => apply negb_false_iff in H
           end;
    destruct (client_ (endpoint w)); cbn;
    repeat match goal with H : is_valid _ = true |- _ => rewrite H end; reflexivity.
Qed.

(** A read never touches the endpoint's fields. *)
Lemma OnReadMessage_step_endpoint (f f' : ReadFrame) (w w' : World) :
  OnReadMessage_step env f w = Returned f' w' ->
  endpoint w' = endpoint w.
Proof.
  unfold OnReadMessage_step, bind, ret, get, history, emit, DCHECK. intros H.
  break_hyps; reflexivity.
Qed.

(** Without [AttachAndRun] an endpoint that has no channel gets none, nothing
    is written, and the pending queue only grows at its back. *)
Lemma run_call_stays_without_channel (c : Call) (w w' : World) :
  is_AttachAndRun c = false ->
  run_call env c w = Returned tt w' ->
  channel_ (endpoint w) = None ->
  channel_ (endpoint w') = None
  /\ channel_writes (trace w') = channel_writes (trace w)
  /\ is_detached_from_channel_ (endpoint w') = is_detached_from_channel_ (endpoint w)
  /\ exists rest, channel_message_queue_ (endpoint w') =
                  channel_message_queue_ (endpoint w) ++ rest.
Proof.
  intros Hc H Hch. destruct c; try discriminate Hc; call_inv H; try congruence;
    cbn [endpoint trace]; unfold detach_notice; cbn;
    rewrite ?channel_writes_app;
    repeat split; try assumption; try congruence;
    try (repeat break_match; cbn; rewrite ?app_nil_r; reflexivity);
    try (eexists; reflexivity);
    try (exists []; rewrite app_nil_r; reflexivity).
Qed.

Lemma run_calls_stay_without_channel (cs : list Call) :
  forall w w' : World,
    forallb (fun c => negb (is_AttachAndRun c)) cs = true ->
    run_calls env cs w = Returned tt w' ->
    channel_ (endpoint w) = None ->
    channel_ (endpoint w') = None
    /\ channel_writes (trace w') = channel_writes (trace w)
    /\ is_detached_from_channel_ (endpoint w') = is_detached_from_channel_ (endpoint w)
    /\ exists rest, channel_message_queue_ (endpoint w') =
                    channel_message_queue_ (endpoint w) ++ rest.
Proof.
  induction cs as [|c cs IH]; intros w w' Hcs H Hch.
  - cbn in H. inversion H; subst. repeat split; try assumption.
    exists []. rewrite app_nil_r. reflexivity.
  - cbn [forallb] in Hcs. apply andb_true_iff in Hcs. destruct Hcs as [Hc Hcs].
    apply negb_true_iff in Hc.
    cbn [run_calls] in H. unfold bind in H.
    destruct (run_call env c w) as [[] w1| |] eqn:H1; try discriminate H.
    destruct (run_call_stays_without_channel c w w1 Hc H1 Hch) as (Hch1 & Hw1 & Hd1 & [r1 Hq1]).
    destruct (IH w1 w' Hcs H Hch1) as (Hch' & Hw' & Hd' & [r2 Hq2]).
    repeat split; try congruence.
    exists (r1 ++ r2). rewrite Hq2, Hq1, app_assoc. reflexivity.
Qed.

Lemma run_call_stays_unreachable (c : Call) (w w' : World) :
  is_AttachAndRun c = false ->
  run_call env c w = Returned tt w' ->
  unreachable (endpoint w) = true ->
  unreachable (endpoint w') = true.
Proof.
  unfold unreachable. intros Hc H Hq.
  destruct c; try discriminate Hc; call_inv H; cbn; try assumption; try reflexivity;
    try (apply orb_true_r).
  all: repeat match goal with
         | H : _ = Some _ |- _ => rewrite H in *
         | H : _ = None |- _ => rewrite H in *
         end; cbn in *; try assumption; try discriminate; try reflexivity.
  rewrite orb_false_r in Hq. rewrite Hq. reflexivity.
Qed.

Lemma run_calls_stay_unreachable (cs : list Call) :
  forall w w' : World,
    forallb (fun c => negb (is_AttachAndRun c)) cs = true ->
    run_calls env cs w = Returned tt w' ->
    unreachable (endpoint w) = true ->
    unreachable (endpoint w') = true.
Proof.
  induction cs as [|c cs IH]; intros w w' Hcs H Hq.
  - cbn in H. inversion H; subst. exact Hq.
  - cbn [forallb] in Hcs. apply andb_true_iff in Hcs. destruct Hcs as [Hc Hcs].
    apply negb_true_iff in Hc.
    cbn [run_calls] in H. unfold bind in H.
    destruct (run_call env c w) as [[] w1| |] eqn:H1; try discriminate H.
    eapply IH; eauto using run_call_stays_unreachable.
Qed.

(** No call brings a client back: [ReplaceClient] insists on having one. *)
Lemma run_call_stays_without_client (c : Call) (w w' : World) :
  run_call env c w = Returned tt w' ->
  client_ (endpoint w) = None ->
  client_ (endpoint w') = None.
Proof.
  intros H Hc. destruct c; call_inv H; cbn; try assumption; try reflexivity;
    try congruence.
  all: try (unfold after_AttachAndRun;
            destruct (client_ (endpoint w)) eqn:?; cbn; congruence).
  all: match goal with
       | Hb : negb (is_some (client_ _)) = false |- _ =>
           rewrite Hc in Hb; discriminate Hb
       end.
Qed.

Lemma run_calls_stay_without_client (cs : list Call) :
  forall w w' : World,
    run_calls env cs w = Returned tt w' ->
    client_ (endpoint w) = None ->
    client_ (endpoint w') = None.
Proof.
  induction cs as [|c cs IH]; intros w w' H Hc.
  - cbn in H. inversion H; subst. exact Hc.
  - cbn [run_calls] in H. unfold bind in H.
    destruct (run_call env c w) as [[] w1| |] eqn:H1; try discriminate H.
    eapply IH; eauto using run_call_stays_without_client.
Qed.

(** Apart from [AttachAndRun], every call keeps a latched endpoint cleared. *)
Lemma run_call_latch_respected (c : Call) (w w' : World) :
  is_AttachAndRun c = false ->
  run_call env c w = Returned tt w' ->
  latch_respected (endpoint w) = true ->
  latch_respected (endpoint w') = true.
Proof.
  intros Hc H Hinv. destruct c; try discriminate Hc; call_inv H; cbn;
    try assumption; try reflexivity.
Qed.

End Invariants.

(** ** [OnReadMessage] *)

Section ReadFacts.

Variable env : Collaborators.

Lemma OnReadMessage_step_deliveries (f f' : ReadFrame) (w w' : World)
  (base d : list (ChannelEndpointClient * nat * MessageInTransit)) :
  OnReadMessage_step env f w = Returned f' w' ->
  deliveries (trace w) = base ++ d ->
  delivered_by f d ->
  exists d',
    deliveries (trace w') = base ++ d'
    /\ delivered_by f' d'
    /\ rd_message f' = rd_message f.
Proof.
  unfold OnReadMessage_step, delivered_by, bind, ret, get, history, emit, DCHECK.
  intros H Htr Hd. destruct (rd_pc f) eqn:Hpc.
  - (* AtLoopTop *)
    break_hyps; subst; exists []; cbn; rewrite Htr; auto.
  - (* AtClientCall *)
    destruct (rd_client f) as [c|] eqn:Hc; [|discriminate H].
    cbn in H. subst d.
    destruct (Client_OnReadMessage env (trace w) c (rd_client_port f) (rd_message f)) eqn:Hok;
      inversion H; subst; clear H; cbn [trace at_pc rd_pc rd_client rd_client_port rd_message].
    + exists [(c, rd_client_port f, rd_message f)].
      rewrite deliveries_app, Htr. cbn. rewrite app_nil_r. eauto.
    + exists []. rewrite deliveries_app, Htr. cbn. rewrite !app_nil_r. auto.
  - (* AtYield *)
    inversion H; subst; clear H. exists []. cbn.
    rewrite deliveries_app, Htr. cbn. rewrite app_nil_r. auto.
  - (* ReadReturned *)
    inversion H; subst; clear H. exists d. rewrite Hpc. auto.
Qed.

Lemma run_schedule_deliveries (s : list Turn) :
  forall (f f' : ReadFrame) (w w' : World)
         (base d : list (ChannelEndpointClient * nat * MessageInTransit)),
    run_schedule env s f w = Returned f' w' ->
    deliveries (trace w) = base ++ d ->
    delivered_by f d ->
    exists d',
      deliveries (trace w') = base ++ d'
      /\ delivered_by f' d'
      /\ rd_message f' = rd_message f.
Proof.
  induction s as [|t s IH]; intros f f' w w' base d H Htr Hd.
  - cbn in H. inversion H; subst. eauto.
  - destruct t as [|c]; cbn [run_schedule] in H; unfold bind in H.
    + destruct (OnReadMessage_step env f w) as [f1 w1| |] eqn:H1; try discriminate H.
      destruct (OnReadMessage_step_deliveries _ _ _ _ _ _ H1 Htr Hd) as (d1 & Htr1 & Hd1 & Hm1).
      destruct (IH _ _ _ _ _ _ H Htr1 Hd1) as (d' & Htr' & Hd' & Hm').
      exists d'. repeat split; try assumption. congruence.
    + destruct (run_call env c w) as [[] w1| |] eqn:H1; try discriminate H.
      apply run_call_deliveries in H1.
      eapply IH; eauto. congruence.
Qed.

(** A read gives up only at a locked check that finds no channel or no
    client. *)
Lemma OnReadMessage_step_gives_up (f f' : ReadFrame) (w w' : World) :
  OnReadMessage_step env f w = Returned f' w' ->
  rd_pc f' = ReadReturned false ->
  rd_pc f <> ReadReturned false ->
  rd_pc f = AtLoopTop /\ unreachable (endpoint w) = true.
Proof.
  unfold OnReadMessage_step, unreachable, bind, ret, get, history, emit, DCHECK.
  intros H Hpc' Hpc. destruct (rd_pc f) eqn:Hf.
  - split; [reflexivity|]. break_hyps; cbn in *; try discriminate; reflexivity.
  - break_hyps; cbn in *; discriminate.
  - inversion H; subst. cbn in Hpc'. discriminate.
  - inversion H; subst. congruence.
Qed.

Lemma run_schedule_gives_up (s : list Turn) :
  forall (f f' : ReadFrame) (w w' : World),
    run_schedule env s f w = Returned f' w' ->
    rd_pc f' = ReadReturned false ->
    rd_pc f <> ReadReturned false ->
    exists (s1 s2 : list Turn) (f1 : ReadFrame) (w1 : World),
      s = s1 ++ ReaderTurn :: s2
      /\ run_schedule env s1 f w = Returned f1 w1
      /\ rd_pc f1 = AtLoopTop
      /\ unreachable (endpoint w1) = true.
Proof.
  induction s as [|t s IH]; intros f f' w w' H Hpc' Hpc.
  - cbn in H. inversion H; subst. contradiction.
  - destruct t as [|c]; cbn [run_schedule] in H; unfold bind in H.
    + destruct (OnReadMessage_step env f w) as [fa wa| |] eqn:H1; try discriminate H.
      destruct (rd_pc fa) as [| | |[|]] eqn:Hfa.
      1-4: destruct (IH fa f' wa w' H Hpc') as (s1 & s2 & f1 & w1 & Hs & Hrun & Hf1 & Hu);
        [congruence|];
        exists (ReaderTurn :: s1), s2, f1, w1; subst s;
        repeat split; try assumption;
        cbn [run_schedule]; unfold bind; rewrite H1; exact Hrun.
      destruct (OnReadMessage_step_gives_up f fa w wa H1 Hfa Hpc) as [Htop Hu].
      exists [], s, f, w. repeat split; assumption.
    + destruct (run_call env c w) as [[] wa| |] eqn:H1; try discriminate H.
      destruct (IH f f' wa w' H Hpc' Hpc) as (s1 & s2 & f1 & w1 & Hs & Hrun & Hf1 & Hu).
      exists (OtherThread c :: s1), s2, f1, w1. subst s.
      repeat split; try assumption.
      cbn [run_schedule]. unfold bind. rewrite H1. exact Hrun.
Qed.

(** One round of the loop on an endpoint with a channel and a client that is
    not the one of the previous round: the snapshot is the current client, and
    the call goes to it. *)
Lemma OnReadMessage_round (f : ReadFrame) (w : World) (ch : Channel)
  (c : ChannelEndpointClient) :
  rd_pc f = AtLoopTop ->
  channel_ (endpoint w) = Some ch ->
  client_ (endpoint w) = Some c ->
  ptr_neq (Some c) (rd_client f)
  || negb (Nat.eqb (client_port_ (endpoint w)) (rd_client_port f)) = true ->
  let port := client_port_ (endpoint w) in
  let accepted := Client_OnReadMessage env (trace w) c port (rd_message f) in
  run_schedule env [ReaderTurn; ReaderTurn] f w =
    Returned
      (MkReadFrame (rd_message f) (Some c) port
         (if accepted then ReadReturned true else AtYield))
      (MkWorld (endpoint w)
         (trace w ++ [ClientOnReadMessage c port (rd_message f) accepted])).
Proof.
  intros Hpc Hch Hc Hneq. destruct_world w. subst.
  cbn [run_schedule]. unfold bind at 1.
  unfold OnReadMessage_step at 1. rewrite Hpc.
  unfold bind, get, ret, DCHECK. cbn [endpoint channel_ client_ client_port_ is_some negb orb].
  rewrite Hneq.
  unfold OnReadMessage_step. cbn [rd_pc rd_client rd_client_port rd_message].
  unfold history, emit. cbn.
  destruct (Client_OnReadMessage env tr c client_port_0 (rd_message f)); reflexivity.
Qed.

Lemma OnReadMessage_step_unreachable (f : ReadFrame) (w : World) :
  rd_pc f = AtLoopTop ->
  unreachable (endpoint w) = true ->
  OnReadMessage_step env f w = Returned (at_pc (ReadReturned false) f) w.
Proof.
  unfold unreachable, OnReadMessage_step. intros Hpc Hu. rewrite Hpc.
  unfold bind, get. rewrite Hu. reflexivity.
Qed.

Lemma run_schedule_app (s1 s2 : list Turn) :
  forall (f0 f1 : ReadFrame) (w0 w1 : World),
    run_schedule env s1 f0 w0 = Returned f1 w1 ->
    run_schedule env (s1 ++ s2) f0 w0 = run_schedule env s2 f1 w1.
Proof.
  induction s1 as [|t s1 IH1]; intros f0 f1 w0 w1 H1.
  - cbn in H1. inversion H1; subst. reflexivity.
  - destruct t as [|c0]; cbn [app run_schedule] in *; unfold bind in *.
    + destruct (OnReadMessage_step env f0 w0); try discriminate H1. eauto.
    + destruct (run_call env c0 w0); try discriminate H1. eauto.
Qed.

(** A read that is about to call a client holds that client in its frame. *)
Lemma OnReadMessage_step_call_has_client (f f' : ReadFrame) (w w' : World) :
  OnReadMessage_step env f w = Returned f' w' ->
  (rd_pc f = AtClientCall -> is_some (rd_client f) = true) ->
  rd_pc f' = AtClientCall -> is_some (rd_client f') = true.
Proof.
  unfold OnReadMessage_step, bind, ret, get, history, emit, DCHECK.
  intros H Hinv Hpc'. destruct (rd_pc f) eqn:Hpc.
  - destruct (negb (is_some (channel_ (endpoint w)))
              || negb (is_some (client_ (endpoint w)))) eqn:Hu.
    + inversion H; subst. cbn in Hpc'. discriminate Hpc'.
    + apply orb_false_iff in Hu. destruct Hu as [_ Hc]. apply negb_false_iff in Hc.
      break_hyps. cbn. exact Hc.
  - break_hyps; cbn in Hpc'; discriminate Hpc'.
  - inversion H; subst. cbn in Hpc'. discriminate Hpc'.
  - inversion H; subst. congruence.
Qed.

Lemma run_schedule_call_has_client (s : list Turn) :
  forall (f f' : ReadFrame) (w w' : World),
    run_schedule env s f w = Returned f' w' ->
    (rd_pc f = AtClientCall -> is_some (rd_client f) = true) ->
    rd_pc f' = AtClientCall -> is_some (rd_client f') = true.
Proof.
  induction s as [|t s IH]; intros f f' w w' H Hinv.
  - cbn in H. inversion H; subst. exact Hinv.
  - destruct t as [|c]; cbn [run_schedule] in H; unfold bind in H.
    + destruct (OnReadMessage_step env f w) as [f1 w1| |] eqn:H1; try discriminate H.
      apply (IH _ _ _ _ H). eapply OnReadMessage_step_call_has_client; eauto.
    + destruct (run_call env c w) as [[] w1| |] eqn:H1; try discriminate H.
      apply (IH _ _ _ _ H Hinv).
Qed.

(** The answer false: the call is recorded, the thread yields, and the read
    is back at the top of its loop, before the locked snapshot. *)
Lemma OnReadMessage_refusal_yields (f : ReadFrame) (w : World) (c : ChannelEndpointClient) :
  rd_pc f = AtClientCall ->
  rd_client f = Some c ->
  Client_OnReadMessage env (trace w) c (rd_client_port f) (rd_message f) = false ->
  run_schedule env [ReaderTurn; ReaderTurn] f w =
    Returned (at_pc AtLoopTop f)
      (MkWorld (endpoint w)
         (trace w ++ [ClientOnReadMessage c (rd_client_port f) (rd_message f) false;
                      YieldCurrentThread])).
Proof.
  intros Hpc Hc Hno. cbn [run_schedule]. unfold bind at 1.
  unfold OnReadMessage_step at 1. rewrite Hpc, Hc.
  unfold bind, history, emit, ret. cbn [endpoint trace]. rewrite Hno.
  unfold OnReadMessage_step. cbn [at_pc rd_pc endpoint trace].
  unfold bind, emit, ret. cbn [endpoint trace rd_message rd_client rd_client_port].
  rewrite <- app_assoc. reflexivity.
Qed.

(** C3, as the code has it: under every interleaving of [OnReadMessage] with
    the calls of other threads, at most one client call for the message
    returns true; once one does, the loop has stopped and the message went to
    the client of that round's snapshot.  The call returns without a delivery
    only from a locked check that found the channel or the client absent.  A
    client call that returns false is followed by the yield, after which the
    read stands at the top of its loop again, before the locked snapshot.  A
    round that starts there with a channel and a client snapshots and calls
    the client that is current at that moment. *)
Theorem OnReadMessage_delivers_at_most_once
  (s : list Turn) (message : MessageInTransit) (w w' : World) (f' : ReadFrame) :
  run_schedule env s (OnReadMessage_enter message) w = Returned f' w' ->
  (exists d,
      deliveries (trace w') = deliveries (trace w) ++ d
      /\ length d <= 1
      /\ match rd_pc f' with
         | ReadReturned true =>
             exists c, rd_client f' = Some c /\ d = [(c, rd_client_port f', message)]
         | _ => d = []
         end)
  /\ (rd_pc f' = ReadReturned false ->
      exists (s1 s2 : list Turn) (f1 : ReadFrame) (w1 : World),
        s = s1 ++ ReaderTurn :: s2
        /\ run_schedule env s1 (OnReadMessage_enter message) w = Returned f1 w1
        /\ rd_pc f1 = AtLoopTop
        /\ unreachable (endpoint w1) = true)
  /\ (rd_pc f' = AtClientCall ->
      exists c0,
        rd_client f' = Some c0
        /\ (Client_OnReadMessage env (trace w') c0 (rd_client_port f') message = false ->
            run_schedule env (s ++ [ReaderTurn; ReaderTurn]) (OnReadMessage_enter message) w =
              Returned
                (MkReadFrame message (Some c0) (rd_client_port f') AtLoopTop)
                (MkWorld (endpoint w')
                   (trace w' ++ [ClientOnReadMessage c0 (rd_client_port f') message false;
                                 YieldCurrentThread]))))
  /\ (forall ch c,
        rd_pc f' = AtLoopTop ->
        channel_ (endpoint w') = Some ch ->
        client_ (endpoint w') = Some c ->
        ptr_neq (Some c) (rd_client f')
        || negb (Nat.eqb (client_port_ (endpoint w')) (rd_client_port f')) = true ->
        exists accepted : bool,
          run_schedule env (s ++ [ReaderTurn; ReaderTurn]) (OnReadMessage_enter message) w =
            Returned
              (MkReadFrame message (Some c) (client_port_ (endpoint w'))
                 (if accepted then ReadReturned true else AtYield))
              (MkWorld (endpoint w')
                 (trace w' ++ [ClientOnReadMessage c (client_port_ (endpoint w'))
                                 message accepted]))).
Proof.
  intros H.
  assert (H0 : deliveries (trace w) = deliveries (trace w) ++ [])
    by (rewrite app_nil_r; reflexivity).
  destruct (run_schedule_deliveries s _ _ _ _ _ [] H H0 eq_refl) as (d & Hd & Hby & Hm).
  cbn in Hm.
  split; [|split; [|split]].
  - exists d. split; [exact Hd|]. unfold delivered_by in Hby. rewrite Hm in Hby.
    destruct (rd_pc f') as [| | |[|]].
    1-3, 5: subst d; cbn; split; [lia | reflexivity].
    destruct Hby as (c & Hc & ->). cbn. split; [lia|]. eauto.
  - intros Hpc. apply (run_schedule_gives_up s _ _ _ _ H Hpc). cbn. discriminate.
  - intros Hpc.
    assert (Hsome : is_some (rd_client f') = true).
    { apply (run_schedule_call_has_client s _ _ _ _ H); [cbn; discriminate | exact Hpc]. }
    destruct (rd_client f') as [c0|] eqn:Hc0; [|discriminate Hsome].
    exists c0. split; [reflexivity|]. intros Hno.
    rewrite (run_schedule_app s _ _ _ _ _ H).
    rewrite <- Hm in Hno |- *.
    rewrite (OnReadMessage_refusal_yields f' w' c0 Hpc Hc0 Hno).
    unfold at_pc. rewrite Hc0. reflexivity.
  - intros ch c Hpc Hch Hc Hneq. eexists.
    rewrite (run_schedule_app s _ _ _ _ _ H).
    rewrite (OnReadMessage_round f' w' ch c Hpc Hch Hc Hneq). rewrite Hm. reflexivity.
Qed.

(** Silence after a detach, as far as the code keeps it: once
    [DetachFromClient] has returned, whatever is called afterwards, and once
    [DetachFromChannel] has returned, whatever is called afterwards short of a
    new [AttachAndRun], [OnReadMessage] passes no [DCHECK], returns at its
    first locked check without calling any client, and leaves the endpoint and
    the trace as they were. *)
Lemma OnReadMessage_after_detach_is_noop
  (w w1 w2 : World) (cs : list Call) (message : MessageInTransit) (fuel : nat) :
  DetachFromClient w = Returned tt w1
  \/ (DetachFromChannel w = Returned tt w1
      /\ forallb (fun c => negb (is_AttachAndRun c)) cs = true) ->
  run_calls env cs w1 = Returned tt w2 ->
  OnReadMessage env (S fuel) message w2 = Returned false w2.
Proof.
  intros Hdetach Hrun.
  assert (Hu2 : unreachable (endpoint w2) = true).
  { destruct Hdetach as [H | [H Hcs]].
    - assert (Hc1 : client_ (endpoint w1) = None).
      { rewrite DetachFromClient_eval in H. break_hyps; reflexivity. }
      unfold unreachable.
      rewrite (run_calls_stay_without_client env cs w1 w2 Hrun Hc1).
      apply orb_true_r.
    - apply (run_calls_stay_unreachable env cs w1 w2 Hcs Hrun).
      unfold unreachable. rewrite DetachFromChannel_eval in H.
      break_hyps; cbn; try reflexivity.
      match goal with Hn : channel_ _ = None |- _ => rewrite Hn end. reflexivity. }
  unfold OnReadMessage. cbn [OnReadMessage_loop OnReadMessage_enter rd_pc].
  unfold bind. rewrite OnReadMessage_step_unreachable by (reflexivity || assumption).
  destruct fuel; reflexivity.
Qed.

End ReadFacts.

(** ** After the channel side is gone *)

Section AfterDetach.

Variable env : Collaborators.

(** Enqueueing on a detached endpoint, as far as the code keeps it: with no
    channel and the latch set [EnqueueMessage] still returns true and puts the
    message at the back of the pending queue; and as long as nobody calls
    [AttachAndRun] again, no later call writes anything to a channel: the
    message stays in the queue. *)
Lemma EnqueueMessage_on_detached_endpoint_queues (w : World) (m : MessageInTransit) :
  Detached (endpoint w) ->
  exists w1 : World,
    EnqueueMessage env (Some m) w = Returned true w1
    /\ w1 = MkWorld (with_queue (channel_message_queue_ (endpoint w) ++ [m]) (endpoint w))
                    (trace w)
    /\ Detached (endpoint w1)
    /\ forall (cs : list Call) (w2 : World),
         forallb (fun c => negb (is_AttachAndRun c)) cs = true ->
         run_calls env cs w1 = Returned tt w2 ->
         channel_ (endpoint w2) = None
         /\ is_detached_from_channel_ (endpoint w2) = true
         /\ channel_writes (trace w2) = channel_writes (trace w)
         /\ exists rest, channel_message_queue_ (endpoint w2) =
                         channel_message_queue_ (endpoint w) ++ m :: rest.
Proof.
  intros (Hch & Hl & Hr & Hd).
  eexists. split; [apply EnqueueMessage_unattached; exact Hch|].
  split; [reflexivity|]. split; [repeat split; assumption|].
  intros cs w2 Hcs Hrun.
  destruct (run_calls_stay_without_channel env cs _ w2 Hcs Hrun Hch)
    as (Hch2 & Hw2 & Hd2 & [rest Hq2]).
  cbn [endpoint trace with_queue channel_message_queue_ is_detached_from_channel_] in *.
  repeat split; try assumption; try congruence.
  exists rest. rewrite Hq2, <- app_assoc. reflexivity.
Qed.

(** [AttachAndRun] looks at [channel_] and the two ids but not at the latch:
    on a detached endpoint that still has its client every [DCHECK] passes and
    the endpoint is attached again. *)
Lemma AttachAndRun_ignores_latch
  (w : World) (c : ChannelEndpointClient) (ch : Channel) (l r : ChannelEndpointId) :
  Detached (endpoint w) ->
  client_ (endpoint w) = Some c ->
  is_valid l = true ->
  is_valid r = true ->
  exists w' : World,
    AttachAndRun env (Some ch) l r w = Returned tt w'
    /\ is_detached_from_channel_ (endpoint w') = true
    /\ channel_ (endpoint w') = Some ch
    /\ local_id_ (endpoint w') = l
    /\ remote_id_ (endpoint w') = r
    /\ latch_respected (endpoint w') = false.
Proof.
  intros (Hch & Hl0 & Hr0 & Hd) Hc Hl Hr.
  eexists. split.
  { apply AttachAndRun_spec; try assumption. congruence. }
  cbn [endpoint]. unfold after_AttachAndRun, latch_respected. rewrite Hc. cbn.
  rewrite Hd. repeat split.
Qed.

End AfterDetach.

(** ** Runs on concrete endpoints *)

Lemma fresh_endpoint_constructed :
  ChannelEndpoint_ctor (Some 1) 0 None = Returned tt fresh_endpoint.
Proof. reflexivity. Qed.

Lemma attached_endpoint_reached :
  AttachAndRun accepting (Some 7) id1 id2 fresh_endpoint = Returned tt attached_endpoint.
Proof. reflexivity. Qed.

Lemma channel_gone_reached :
  DetachFromChannel attached_endpoint = Returned tt channel_gone.
Proof. reflexivity. Qed.

Lemma client_gone_reached :
  DetachFromClient attached_endpoint = Returned tt client_gone.
Proof. reflexivity. Qed.

Lemma fresh_endpoint_Unattached : Unattached (endpoint fresh_endpoint).
Proof. repeat split. Defined.

Lemma channel_gone_Detached : Detached (endpoint channel_gone).
Proof. repeat split. Defined.

Lemma queued_endpoint_constructed :
  ChannelEndpoint_ctor None 0 (Some [msg 10; msg 11]) = Returned tt queued_endpoint.
Proof. reflexivity. Qed.

Lemma queued_endpoint_Unattached : Unattached (endpoint queued_endpoint).
Proof. repeat split. Defined.

(** Two messages are enqueued before the attach and one after it, on a channel
    whose writes all fail: the three still arrive in that order. *)
Lemma pending_messages_written_in_fifo_order_witness :
  Unattached (endpoint fresh_endpoint)
  /\ exists w2 w3 : World,
       channel_writes (trace w2) =
         [(7, MkMessage 10 id1 id2); (7, MkMessage 11 id1 id2)]
       /\ channel_writes (trace w3) =
            [(7, MkMessage 10 id1 id2); (7, MkMessage 11 id1 id2);
             (7, MkMessage 12 id1 id2)].
Proof.
  split; [exact fresh_endpoint_Unattached|].
  destruct (pending_messages_written_in_fifo_order failing_channel fresh_endpoint
              [msg 10; msg 11] [msg 12] 7 id1 id2
              fresh_endpoint_Unattached eq_refl eq_refl)
    as (w1 & w2 & w3 & oks & _ & _ & _ & _ & H5 & _ & H7).
  exists w2, w3. rewrite H7, H5. split; reflexivity.
Defined.

Lemma EnqueueMessage_queues_or_forwards_witness :
  ids_match_channel (endpoint attached_endpoint) = true
  /\ EnqueueMessage accepting (Some (msg 5)) attached_endpoint =
       Returned true
         (MkWorld (endpoint attached_endpoint)
                  [ChannelWriteMessage 7 (MkMessage 5 id1 id2) true]).
Proof.
  split; [reflexivity|].
  pose proof (EnqueueMessage_queues_or_forwards accepting attached_endpoint (msg 5) eq_refl)
    as H.
  cbn [attached_endpoint endpoint channel_] in H.
  destruct H as (m' & Hm' & _ & _ & H). rewrite H, Hm'. reflexivity.
Defined.

Lemma OnReadMessage_delivers_at_most_once_witness :
  run_schedule client_2_only swap_during_read (OnReadMessage_enter (msg 9)) attached_endpoint =
    Returned (MkReadFrame (msg 9) (Some 2) 1 (ReadReturned true))
      (MkWorld (MkChannelEndpoint (Some 2) 1 (Some 7) id1 id2 [] false)
         [ClientOnReadMessage 1 0 (msg 9) false; YieldCurrentThread;
          ClientOnReadMessage 2 1 (msg 9) true])
  /\ exists w' : World,
       deliveries (trace w') = [(2, 1, msg 9)].
Proof.
  split; [reflexivity|].
  eexists.
  destruct (OnReadMessage_delivers_at_most_once client_2_only swap_during_read (msg 9)
              attached_endpoint _ _ eq_refl) as [(d & Hd & _ & Hpc) _].
  cbn [rd_pc rd_client rd_client_port] in Hpc. destruct Hpc as (c & Hc & Hdc).
  injection Hc as Hc. subst c d. exact Hd.
Defined.

(** C3 as stated fails: a message that arrives after the client detached is
    processed by [OnReadMessage] and no client call succeeds, not one. *)
Lemma OnReadMessage_may_deliver_to_nobody :
  DetachFromClient attached_endpoint = Returned tt client_gone
  /\ OnReadMessage accepting 1 (msg 9) client_gone = Returned false client_gone
  /\ deliveries (trace client_gone) = []
  /\ length (deliveries (trace client_gone)) <> 1.
Proof.
  repeat split. cbn. discriminate.
Qed.



Lemma DetachFromClient_unregisters_from_channel_witness :
  client_ (endpoint attached_endpoint) = Some 1
  /\ exists w' : World,
       DetachFromClient attached_endpoint = Returned tt w'
       /\ detach_endpoint_calls (trace w') = [(7, id1, id2)]
       /\ w' = client_gone.
Proof.
  split; [reflexivity|].
  pose proof (DetachFromClient_unregisters_from_channel attached_endpoint 1
                eq_refl eq_refl eq_refl) as H.
  cbn [attached_endpoint endpoint channel_] in H.
  destruct H as (w' & H1 & H2 & H3 & H4 & _).
  exists w'. split; [exact H1|]. split; [exact H3|].
  destruct w' as [ep tr]. cbn in H2, H4. subst. reflexivity.
Defined.

Lemma ReplaceClient_returns_not_detached_witness :
  client_ (endpoint channel_gone) = Some 1
  /\ ReplaceClient (Some 2) 1 channel_gone =
       Returned false (MkWorld (with_client (Some 2) 1 (endpoint channel_gone))
                               (trace channel_gone)).
Proof.
  split; [reflexivity|].
  destruct (ReplaceClient_returns_not_detached channel_gone 1 2 1 eq_refl
              (or_introl (fun H : 2 = 1 => O_S 0 (eq_sym (eq_add_S 1 0 H)))))
    as (b & H & Hb & _).
  subst b. exact H.
Defined.

(** C7 as stated fails: on an endpoint that has not been attached yet
    [ReplaceClient] returns true although there is no channel. *)
Lemma ReplaceClient_true_without_channel :
  ChannelEndpoint_ctor (Some 1) 0 None = Returned tt fresh_endpoint
  /\ channel_ (endpoint fresh_endpoint) = None
  /\ ReplaceClient (Some 2) 1 fresh_endpoint =
       Returned true
         (MkWorld (MkChannelEndpoint (Some 2) 1 None ChannelEndpointId_default
                     ChannelEndpointId_default [] false) []).
Proof. repeat split. Qed.

(** Both queued writes fail; both are made, each followed by a warning, and
    the endpoint, having no client, detaches. *)
Lemma AttachAndRun_drains_past_failed_writes_witness :
  Unattached (endpoint queued_endpoint)
  /\ AttachAndRun failing_channel (Some 7) id1 id2 queued_endpoint =
       Returned tt
         (MkWorld (MkChannelEndpoint None 0 None ChannelEndpointId_default
                     ChannelEndpointId_default [] true)
            [ChannelWriteMessage 7 (MkMessage 10 id1 id2) false; LogWarning;
             ChannelWriteMessage 7 (MkMessage 11 id1 id2) false; LogWarning;
             ChannelDetachEndpoint 7 id1 id2])
  /\ exists w' : World,
       channel_writes (trace w') = [(7, MkMessage 10 id1 id2); (7, MkMessage 11 id1 id2)]
       /\ Detached (endpoint w').
Proof.
  split; [exact queued_endpoint_Unattached|]. split; [reflexivity|].
  destruct (AttachAndRun_drains_past_failed_writes failing_channel queued_endpoint 7 id1 id2
              queued_endpoint_Unattached eq_refl eq_refl)
    as (w' & _ & H2 & _ & _ & _ & H6).
  cbn [queued_endpoint endpoint client_] in H6. destruct H6 as (_ & _ & H6).
  exists w'. split; [rewrite H2; reflexivity | exact H6].
Defined.

Lemma OnReadMessage_after_detach_is_noop_example :
  DetachFromClient attached_endpoint = Returned tt client_gone
  /\ OnReadMessage accepting 3 (msg 9)
       (MkWorld (with_queue [msg 3] (endpoint client_gone)) (trace client_gone)) =
     Returned false
       (MkWorld (with_queue [msg 3] (endpoint client_gone)) (trace client_gone)).
Proof.
  split; [reflexivity|].
  exact (OnReadMessage_after_detach_is_noop accepting attached_endpoint client_gone
           (MkWorld (with_queue [msg 3] (endpoint client_gone)) (trace client_gone))
           [CallEnqueueMessage (Some (msg 3))] (msg 9) 2
           (or_introl eq_refl) eq_refl).
Defined.

Lemma EnqueueMessage_on_detached_endpoint_queues_example :
  Detached (endpoint channel_gone)
  /\ EnqueueMessage accepting (Some (msg 4)) channel_gone =
       Returned true
         (MkWorld (with_queue [msg 4] (endpoint channel_gone)) (trace channel_gone)).
Proof.
  split; [exact channel_gone_Detached|].
  destruct (EnqueueMessage_on_detached_endpoint_queues accepting channel_gone (msg 4)
              channel_gone_Detached) as (w1 & H1 & H2 & _).
  rewrite H1, H2. reflexivity.
Defined.

(** C5 on the code: after [AttachAndRun] and [DetachFromChannel] the latch is
    set and channel and ids are cleared; a second [AttachAndRun] passes every
    [DCHECK] it has, stores the channel and two valid ids, and leaves the latch
    set.  The next [DetachFromChannel] then stops at the assertion of
    [ResetChannelNoLock] that the endpoint had not been detached before. *)
Theorem AttachAndRun_reattaches_after_DetachFromChannel :
  ChannelEndpoint_ctor (Some 1) 0 None = Returned tt fresh_endpoint
  /\ run_calls accepting [CallAttachAndRun (Some 7) id1 id2; CallDetachFromChannel]
       fresh_endpoint = Returned tt channel_gone
  /\ Detached (endpoint channel_gone)
  /\ AttachAndRun accepting (Some 7) id3 id4 channel_gone =
       Returned tt
         (MkWorld (MkChannelEndpoint (Some 1) 0 (Some 7) id3 id4 [] true)
                  [ClientOnDetachFromChannel 1 0])
  /\ latch_respected (MkChannelEndpoint (Some 1) 0 (Some 7) id3 id4 [] true) = false
  /\ ids_match_channel (MkChannelEndpoint (Some 1) 0 (Some 7) id3 id4 [] true) = true
  /\ DetachFromChannel
       (MkWorld (MkChannelEndpoint (Some 1) 0 (Some 7) id3 id4 [] true)
                [ClientOnDetachFromChannel 1 0]) = DcheckFailed 193.
Proof. repeat split. Qed.

(** ** The whole life of an endpoint *)

Ltac call_cases H :=
  cbn [run_call] in H; unfold bind, ret in H;
  try rewrite EnqueueMessage_eval in H;
  try rewrite ReplaceClient_eval in H;
  try rewrite DetachFromClient_eval in H;
  try rewrite AttachAndRun_eval in H;
  try rewrite DetachFromChannel_eval in H;
  cbv zeta in H;
  break_hyps.

(** Rewrite with what the case analysis found out about the fields. *)
Ltac use_field_eqs :=
  repeat match goal with
         | Hx : client_ _ = _ |- _ => rewrite Hx
         | Hx : channel_ _ = _ |- _ => rewrite Hx
         | Hx : is_some (channel_ _) = _ |- _ => rewrite Hx
         | Hx : is_detached_from_channel_ _ = _ |- _ => rewrite Hx
         end.

Section Lifetime.

Variable env : Collaborators.

(** A property kept by every call and by every step of a read is kept by
    every interleaving of a read with calls. *)
Lemma run_schedule_keeps (P : World -> Prop) :
  (forall c w w', run_call env c w = Returned tt w' -> P w -> P w') ->
  (forall f f' w w', OnReadMessage_step env f w = Returned f' w' -> P w -> P w') ->
  forall (s : list Turn) (f f' : ReadFrame) (w w' : World),
    run_schedule env s f w = Returned f' w' -> P w -> P w'.
Proof.
  intros Hcall Hread. induction s as [|t s IH]; intros f f' w w' H HP.
  - cbn in H. inversion H; subst. exact HP.
  - destruct t as [|c]; cbn [run_schedule] in H; unfold bind in H.
    + destruct (OnReadMessage_step env f w) as [f1 w1| |] eqn:H1; try discriminate H.
      eapply IH; eauto.
    + destruct (run_call env c w) as [[] w1| |] eqn:H1; try discriminate H.
      eapply IH; eauto.
Qed.

(** A step of a read adds at most a client call or a yield to the trace. *)
Lemma OnReadMessage_step_trace (f f' : ReadFrame) (w w' : World) :
  OnReadMessage_step env f w = Returned f' w' ->
  endpoint w' = endpoint w
  /\ (trace w' = trace w
      \/ (exists c port m ok, trace w' = trace w ++ [ClientOnReadMessage c port m ok])
      \/ trace w' = trace w ++ [YieldCurrentThread]).
Proof.
  unfold OnReadMessage_step, bind, ret, get, history, emit, DCHECK. intros H.
  break_hyps; cbn [endpoint trace]; split; try reflexivity; eauto 10.
Qed.

Lemma ctor_endpoint (client : option ChannelEndpointClient) (port : nat)
  (message_queue : option MessageInTransitQueue) (w0 : World) :
  ChannelEndpoint_ctor client port message_queue = Returned tt w0 ->
  w0 = MkWorld
         (MkChannelEndpoint client port None ChannelEndpointId_default
            ChannelEndpointId_default
            (match message_queue with Some q => q | None => [] end) false) []
  /\ (client <> None \/ message_queue <> None).
Proof.
  unfold ChannelEndpoint_ctor. intros H.
  destruct client, message_queue; cbn in H; try discriminate H;
    inversion H; subst; split; try reflexivity;
    try (left; discriminate); right; discriminate.
Qed.

(** X1: in every state an endpoint can reach from its constructor, whatever
    the calls and the reads in between, each of the two ids is valid exactly
    when the channel pointer is set. *)
Theorem ids_match_channel_always
  (client : option ChannelEndpointClient) (port : nat)
  (message_queue : option MessageInTransitQueue)
  (s : list Turn) (f f' : ReadFrame) (w0 w : World) :
  ChannelEndpoint_ctor client port message_queue = Returned tt w0 ->
  run_schedule env s f w0 = Returned f' w ->
  ids_match_channel (endpoint w) = true
  /\ channel_iff_both_ids (endpoint w) = true.
Proof.
  intros H0 Hrun. apply ctor_endpoint in H0. destruct H0 as [-> _].
  assert (Hinv : ids_match_channel (endpoint w) = true).
  { refine (run_schedule_keeps (fun w => ids_match_channel (endpoint w) = true)
              _ _ s f f' _ w Hrun _).
    - intros c w1 w2. apply run_call_ids_match_channel.
    - intros f1 f2 w1 w2 H1. apply OnReadMessage_step_trace in H1.
      destruct H1 as [-> _]. auto.
    - reflexivity. }
  split; [exact Hinv | apply ids_match_gives_iff; exact Hinv].
Qed.

(** X2: no call and no read clears [is_detached_from_channel_]: once it is
    true it is true after every interleaving that follows. *)
Theorem latch_never_cleared (s : list Turn) (f f' : ReadFrame) (w w' : World) :
  run_schedule env s f w = Returned f' w' ->
  is_detached_from_channel_ (endpoint w) = true ->
  is_detached_from_channel_ (endpoint w') = true.
Proof.
  apply (run_schedule_keeps (fun w => is_detached_from_channel_ (endpoint w) = true)).
  - intros c w1 w2. apply run_call_latch_stays_set.
  - intros f1 f2 w1 w2 H1. apply OnReadMessage_step_trace in H1.
    destruct H1 as [-> _]. auto.
Qed.

Lemma run_call_queue_only_when_unattached (c : Call) (w w' : World) :
  run_call env c w = Returned tt w' ->
  queue_only_when_unattached (endpoint w) = true ->
  queue_only_when_unattached (endpoint w') = true.
Proof.
  unfold queue_only_when_unattached. intros H Hinv.
  destruct c; call_cases H; cbn; try assumption; try reflexivity.
  all: try (repeat match goal with
                   | Hx : channel_ _ = _ |- _ => rewrite Hx in *
                   end; cbn in *; assumption).
  all: unfold after_AttachAndRun; destruct (client_ (endpoint w)); cbn; reflexivity.
Qed.

(** X3: from the constructor on, whatever the calls and reads, the pending
    queue holds messages only while there is no channel: with a channel set
    the queue is empty. *)
Theorem queue_empty_while_attached
  (client : option ChannelEndpointClient) (port : nat)
  (message_queue : option MessageInTransitQueue)
  (s : list Turn) (f f' : ReadFrame) (w0 w : World) (ch : Channel) :
  ChannelEndpoint_ctor client port message_queue = Returned tt w0 ->
  run_schedule env s f w0 = Returned f' w ->
  channel_ (endpoint w) = Some ch ->
  channel_message_queue_ (endpoint w) = [].
Proof.
  intros H0 Hrun Hch. apply ctor_endpoint in H0. destruct H0 as [-> _].
  assert (Hinv : queue_only_when_unattached (endpoint w) = true).
  { refine (run_schedule_keeps (fun w => queue_only_when_unattached (endpoint w) = true)
              _ _ s f f' _ w Hrun _).
    - intros c w1 w2. apply run_call_queue_only_when_unattached.
    - intros f1 f2 w1 w2 H1. apply OnReadMessage_step_trace in H1.
      destruct H1 as [-> _]. auto.
    - reflexivity. }
  unfold queue_only_when_unattached in Hinv. rewrite Hch in Hinv. cbn in Hinv.
  destruct (channel_message_queue_ (endpoint w)); [reflexivity | discriminate].
Qed.

End Lifetime.

Section Accounting.

Variable env : Collaborators.

Lemma length_channel_writes_drain_events (ch : Channel) (l r : ChannelEndpointId)
  (q : list MessageInTransit) (tr : list Event) :
  length (channel_writes (drain_events env tr ch l r q)) = length q.
Proof. rewrite channel_writes_drain_events. apply length_map. Qed.

Lemma channel_writes_detach_notice (ep : ChannelEndpoint) :
  channel_writes (detach_notice ep) = [].
Proof. unfold detach_notice. destruct (client_ ep); reflexivity. Qed.

Lemma detach_endpoint_calls_detach_notice (ep : ChannelEndpoint) :
  detach_endpoint_calls (detach_notice ep) = [].
Proof. unfold detach_notice. destruct (client_ ep); reflexivity. Qed.

(** What a call adds to the messages written plus the messages queued. *)
Lemma run_call_conserves_messages (c : Call) (w w' : World) :
  run_call env c w = Returned tt w' ->
  length (channel_writes (trace w')) + length (channel_message_queue_ (endpoint w')) =
    length (channel_writes (trace w)) + length (channel_message_queue_ (endpoint w))
    + (if is_EnqueueMessage c then 1 else 0).
Proof.
  intros H. destruct c; call_cases H; cbn [is_EnqueueMessage endpoint trace];
    unfold after_AttachAndRun;
    repeat match goal with
           | |- context [match ?x with _ => _ end] => destruct x
           end;
    cbn [with_queue with_client with_channel reset_channel channel_message_queue_];
    rewrite ?channel_writes_app, ?length_app, ?length_channel_writes_drain_events,
      ?channel_writes_detach_notice; cbn [channel_writes length]; lia.
Qed.

Lemma OnReadMessage_step_conserves_messages (f f' : ReadFrame) (w w' : World) :
  OnReadMessage_step env f w = Returned f' w' ->
  length (channel_writes (trace w')) + length (channel_message_queue_ (endpoint w')) =
    length (channel_writes (trace w)) + length (channel_message_queue_ (endpoint w)).
Proof.
  intros H. apply OnReadMessage_step_trace in H.
  destruct H as [-> [-> | [(c & port & m & ok & ->) | ->]]];
    rewrite ?channel_writes_app; cbn; rewrite ?app_nil_r; reflexivity.
Qed.

(** X4: the endpoint neither loses nor duplicates a message it was given.
    Over every interleaving of calls and reads, the number of messages handed
    to [Channel::WriteMessage] plus the number left in the pending queue grows
    by exactly the number of [EnqueueMessage] calls. *)
Theorem messages_written_or_queued (s : list Turn) :
  forall (f f' : ReadFrame) (w w' : World),
    run_schedule env s f w = Returned f' w' ->
    length (channel_writes (trace w')) + length (channel_message_queue_ (endpoint w')) =
      length (channel_writes (trace w)) + length (channel_message_queue_ (endpoint w))
      + count_calls is_EnqueueMessage (calls_of s).
Proof.
  unfold count_calls.
  induction s as [|t s IH]; intros f f' w w' H.
  - cbn in H. inversion H; subst. cbn. lia.
  - destruct t as [|c]; cbn [run_schedule calls_of] in *; unfold bind in H.
    + destruct (OnReadMessage_step env f w) as [f1 w1| |] eqn:H1; try discriminate H.
      rewrite (IH _ _ _ _ H), (OnReadMessage_step_conserves_messages _ _ _ _ H1).
      reflexivity.
    + destruct (run_call env c w) as [[] w1| |] eqn:H1; try discriminate H.
      rewrite (IH _ _ _ _ H), (run_call_conserves_messages _ _ _ H1).
      cbn [filter]. destruct (is_EnqueueMessage c); cbn [length]; lia.
Qed.

(** What a call adds to the [DetachEndpoint] calls made plus the registration
    still held. *)
Lemma run_call_detaches_what_it_attached (c : Call) (w w' : World) :
  run_call env c w = Returned tt w' ->
  length (detach_endpoint_calls (trace w')) + registrations (endpoint w') <=
    length (detach_endpoint_calls (trace w)) + registrations (endpoint w)
    + (if is_AttachAndRun c then 1 else 0).
Proof.
  unfold registrations.
  intros H. destruct c; call_cases H; cbn [is_AttachAndRun endpoint trace];
    unfold after_AttachAndRun; use_field_eqs;
    cbn [with_queue with_client with_channel reset_channel channel_ is_some];
    use_field_eqs; cbn [is_some];
    rewrite ?detach_endpoint_calls_app, ?length_app, ?detach_endpoint_calls_drain_events,
      ?detach_endpoint_calls_detach_notice; cbn [detach_endpoint_calls length]; lia.
Qed.

(** X5: the endpoint never calls [Channel::DetachEndpoint] more often than it
    was attached.  From the constructor on, over every interleaving, the
    number of [DetachEndpoint] calls, plus one while a channel is still set,
    is at most the number of [AttachAndRun] calls. *)
Theorem DetachEndpoint_at_most_once_per_attach
  (client : option ChannelEndpointClient) (port : nat)
  (message_queue : option MessageInTransitQueue)
  (s : list Turn) (f f' : ReadFrame) (w0 w : World) :
  ChannelEndpoint_ctor client port message_queue = Returned tt w0 ->
  run_schedule env s f w0 = Returned f' w ->
  length (detach_endpoint_calls (trace w)) + registrations (endpoint w) <=
    count_calls is_AttachAndRun (calls_of s).
Proof.
  intros H0 Hrun. apply ctor_endpoint in H0. destruct H0 as [-> _].
  assert (Hgen : forall s f f' w1 w2,
             run_schedule env s f w1 = Returned f' w2 ->
             length (detach_endpoint_calls (trace w2)) + registrations (endpoint w2) <=
               length (detach_endpoint_calls (trace w1)) + registrations (endpoint w1)
               + count_calls is_AttachAndRun (calls_of s)).
  { clear. unfold count_calls.
    induction s as [|t s IH]; intros f f' w1 w2 H.
    - cbn in H. inversion H; subst. cbn. lia.
    - destruct t as [|c]; cbn [run_schedule calls_of] in *; unfold bind in H.
      + destruct (OnReadMessage_step env f w1) as [fa wa| |] eqn:H1; try discriminate H.
        apply IH in H. apply OnReadMessage_step_trace in H1.
        destruct H1 as [He [Ht | [(c & port & m & ok & Ht) | Ht]]];
          rewrite He, Ht in H; rewrite ?detach_endpoint_calls_app in H;
          cbn in H; rewrite ?app_nil_r in H; exact H.
      + destruct (run_call env c w1) as [[] wa| |] eqn:H1; try discriminate H.
        apply IH in H. apply run_call_detaches_what_it_attached in H1.
        cbn [filter]. destruct (is_AttachAndRun c); cbn [length]; lia. }
  apply Hgen in Hrun. cbn in Hrun. exact Hrun.
Qed.

Lemma routed_drain_events (ch : Channel) (l r : ChannelEndpointId)
  (q : list MessageInTransit) :
  is_valid l = true -> is_valid r = true ->
  forall tr, forallb routed (drain_events env tr ch l r q) = true.
Proof.
  intros Hl Hr. induction q as [|m q IH]; intros tr; [reflexivity|].
  cbn [drain_events]. rewrite forallb_app, IH.
  destruct (Channel_WriteMessage env tr ch (stamp env ch l r m)); cbn;
    rewrite Hl, Hr; reflexivity.
Qed.

Lemma run_call_routed (c : Call) (w w' : World) :
  run_call env c w = Returned tt w' ->
  forallb routed (trace w) = true ->
  forallb routed (trace w') = true.
Proof.
  intros H Hinv. destruct c; call_cases H; cbn [trace];
    repeat match goal with
           | Hx : negb _ = false |- _ => apply negb_false_iff in Hx
           end;
    rewrite ?forallb_app, ?Hinv, ?routed_drain_events by assumption;
    unfold detach_notice;
    repeat match goal with
           | |- context [match ?x with _ => _ end] => destruct x
           end;
    cbn;
    repeat match goal with
           | Hx : is_valid _ = true |- _ => rewrite Hx
           end;
    try reflexivity; try assumption.
Qed.

(** X6: the endpoint never talks to a channel with an invalid routing id.
    Every message it passes to [Channel::WriteMessage] has a valid source id
    and a valid destination id, and every [Channel::DetachEndpoint] call has
    two valid ids, over every interleaving of calls and reads. *)
Theorem channel_calls_carry_valid_ids (s : list Turn) (f f' : ReadFrame) (w w' : World) :
  run_schedule env s f w = Returned f' w' ->
  forallb routed (trace w) = true ->
  forallb routed (trace w') = true.
Proof.
  apply (run_schedule_keeps env (fun w => forallb routed (trace w) = true)).
  - intros c w1 w2. apply run_call_routed.
  - intros f1 f2 w1 w2 H1 Hinv. apply OnReadMessage_step_trace in H1.
    destruct H1 as [_ [-> | [(c & port & m & ok & ->) | ->]]];
      rewrite ?forallb_app, ?Hinv; reflexivity.
Qed.

End Accounting.

Section ClientAxis.

Variable env : Collaborators.

Lemma destructible_fields (ep : ChannelEndpoint) :
  destructible ep = true ->
  client_ ep = None /\ channel_ ep = None
  /\ is_valid (local_id_ ep) = false /\ is_valid (remote_id_ ep) = false.
Proof.
  unfold destructible. intros H.
  repeat (apply andb_true_iff in H; destruct H as [H ?]).
  repeat match goal with
         | Hx : negb _ = true |- _ => apply negb_true_iff in Hx
         end.
  destruct (client_ ep), (channel_ ep); try discriminate. auto.
Qed.

Lemma ChannelEndpoint_dtor_eval (w : World) :
  ChannelEndpoint_dtor w =
    if is_some (client_ (endpoint w)) then DcheckFailed 168
    else if is_some (channel_ (endpoint w)) then DcheckFailed 169
    else if is_valid (local_id_ (endpoint w)) then DcheckFailed 170
    else if is_valid (remote_id_ (endpoint w)) then DcheckFailed 171
    else Returned tt w.
Proof.
  destruct_world w. unfold_ops. cbn.
  destruct client_0; cbn; [reflexivity|].
  destruct channel_0; cbn; [reflexivity|].
  destruct (is_valid local_id_0); cbn; [reflexivity|].
  destruct (is_valid remote_id_0); reflexivity.
Qed.

Lemma run_call_destructible (c : Call) (w w' : World) :
  run_call env c w = Returned tt w' ->
  destructible (endpoint w) = true ->
  destructible (endpoint w') = true.
Proof.
  intros H Hd. pose proof (destructible_fields _ Hd) as (Hc & Hch & Hl & Hr).
  destruct c; call_cases H; cbn [endpoint]; try congruence.
  all: try match goal with
           | Hb : negb (is_some (client_ _)) = false |- _ =>
               rewrite Hc in Hb; discriminate Hb
           end.
  all: unfold destructible, after_AttachAndRun; use_field_eqs; cbn; use_field_eqs;
    rewrite ?Hl, ?Hr; reflexivity.
Qed.

Lemma run_calls_destructible (cs : list Call) :
  forall w w' : World,
    run_calls env cs w = Returned tt w' ->
    destructible (endpoint w) = true ->
    destructible (endpoint w') = true.
Proof.
  induction cs as [|c cs IH]; intros w w' H Hd.
  - cbn in H. inversion H; subst. exact Hd.
  - cbn [run_calls] in H. unfold bind in H.
    destruct (run_call env c w) as [[] w1| |] eqn:H1; try discriminate H.
    eapply IH; eauto using run_call_destructible.
Qed.

(** X7: [DetachFromClient] is final on the client side.  After it has
    returned, no sequence of calls gives the endpoint a client again, and
    every [ReplaceClient] stops at a [DCHECK]: at line 48 for a null client,
    at line 51 ("there is a client to replace") for any other. *)
Theorem no_client_after_DetachFromClient
  (w w1 w2 : World) (cs : list Call)
  (client : option ChannelEndpointClient) (port : nat) :
  DetachFromClient w = Returned tt w1 ->
  run_calls env cs w1 = Returned tt w2 ->
  client_ (endpoint w2) = None
  /\ ReplaceClient client port w2 = DcheckFailed (if is_some client then 51 else 48)
  /\ DetachFromClient w2 = DcheckFailed 60.
Proof.
  intros H Hrun.
  assert (Hc1 : client_ (endpoint w1) = None).
  { rewrite DetachFromClient_eval in H. break_hyps; reflexivity. }
  pose proof (run_calls_stay_without_client env cs w1 w2 Hrun Hc1) as Hc2.
  split; [exact Hc2|]. split.
  - rewrite ReplaceClient_eval, Hc2. destruct client; reflexivity.
  - rewrite DetachFromClient_eval, Hc2. reflexivity.
Qed.

(** X8: after [DetachFromClient] the endpoint can be destroyed.  On an
    endpoint whose ids match its channel, once [DetachFromClient] has returned
    all four assertions of the destructor hold, and they still hold after any
    calls that follow. *)
Theorem destructor_passes_after_DetachFromClient
  (w w1 w2 : World) (cs : list Call) :
  ids_match_channel (endpoint w) = true ->
  DetachFromClient w = Returned tt w1 ->
  run_calls env cs w1 = Returned tt w2 ->
  ChannelEndpoint_dtor w2 = Returned tt w2.
Proof.
  intros Hids H Hrun.
  assert (Hd1 : destructible (endpoint w1) = true).
  { rewrite DetachFromClient_eval in H.
    destruct (client_ (endpoint w)); [|discriminate H].
    destruct (channel_ (endpoint w)) as [ch|] eqn:Hch.
    - break_hyps. reflexivity.
    - inversion H; subst. destruct (ids_match_unattached _ Hids Hch) as [Hl Hr].
      unfold destructible. cbn. rewrite Hch, Hl, Hr. reflexivity. }
  pose proof (run_calls_destructible cs w1 w2 Hrun Hd1) as Hd2.
  destruct (destructible_fields _ Hd2) as (Hc & Hch & Hl & Hr).
  rewrite ChannelEndpoint_dtor_eval, Hc, Hch, Hl, Hr. reflexivity.
Qed.

(** X9: [DetachFromChannel] alone does not make an endpoint destructible.
    While a client is attached it leaves [client_] set, so the destructor's
    first assertion (line 168) fails: the client has to detach as well. *)
Theorem destructor_fails_while_client_attached
  (w w1 : World) (c : ChannelEndpointClient) :
  client_ (endpoint w) = Some c ->
  DetachFromChannel w = Returned tt w1 ->
  client_ (endpoint w1) = Some c
  /\ ChannelEndpoint_dtor w1 = DcheckFailed 168.
Proof.
  intros Hc H.
  assert (Hc1 : client_ (endpoint w1) = Some c).
  { rewrite DetachFromChannel_eval in H. break_hyps; cbn; exact Hc. }
  split; [exact Hc1|]. rewrite ChannelEndpoint_dtor_eval, Hc1. reflexivity.
Qed.

(** X10: an endpoint built from a queue alone lives just long enough to send
    it.  [ChannelEndpoint(null, port, &q)] followed by [AttachAndRun] with two
    valid ids writes the messages of [q], stamped and in order, calls
    [DetachEndpoint] once, and leaves an endpoint that passes the destructor's
    assertions. *)
Theorem queue_only_endpoint_flushes_and_detaches
  (q : MessageInTransitQueue) (port : nat) (ch : Channel) (l r : ChannelEndpointId) :
  is_valid l = true ->
  is_valid r = true ->
  exists w0 w1 : World,
    ChannelEndpoint_ctor None port (Some q) = Returned tt w0
    /\ AttachAndRun env (Some ch) l r w0 = Returned tt w1
    /\ trace w1 = drain_events env [] ch l r q ++ [ChannelDetachEndpoint ch l r]
    /\ channel_writes (trace w1) = map (fun m => (ch, stamp env ch l r m)) q
    /\ detach_endpoint_calls (trace w1) = [(ch, l, r)]
    /\ channel_message_queue_ (endpoint w1) = []
    /\ ChannelEndpoint_dtor w1 = Returned tt w1.
Proof.
  intros Hl Hr. eexists. eexists.
  split; [reflexivity|].
  split; [apply AttachAndRun_spec; auto|].
  cbn [trace endpoint client_ channel_message_queue_ app].
  rewrite channel_writes_app, detach_endpoint_calls_app, channel_writes_drain_events,
    detach_endpoint_calls_drain_events.
  cbn. rewrite app_nil_r. repeat split.
Qed.

(** X11: the window between the locked part of [DetachFromChannel] and its
    notification (lines 158-162).  On an endpoint with client [c1], if
    [ReplaceClient] swaps in another client after the locked part, it returns
    false, and the notification that follows goes to [c1] with the port taken
    under the lock; the new client is in place and is not notified. *)
Theorem DetachFromChannel_notifies_the_snapshot
  (w w1 : World) (c1 c2 : ChannelEndpointClient) (port2 : nat)
  (snapshot : option ChannelEndpointClient * nat) :
  client_ (endpoint w) = Some c1 ->
  DetachFromChannel_locked w = Returned snapshot w1 ->
  c2 <> c1 \/ port2 <> client_port_ (endpoint w) ->
  exists w2 w3 : World,
    snapshot = (Some c1, client_port_ (endpoint w))
    /\ ReplaceClient (Some c2) port2 w1 = Returned false w2
    /\ client_ (endpoint w2) = Some c2
    /\ client_port_ (endpoint w2) = port2
    /\ DetachFromChannel_notify snapshot w2 = Returned tt w3
    /\ endpoint w3 = endpoint w2
    /\ trace w3 = trace w ++ [ClientOnDetachFromChannel c1 (client_port_ (endpoint w))].
Proof.
  intros Hc H Hdiff.
  assert (Hneq : ptr_neq (Some c2) (Some c1)
                 || negb (port2 =? client_port_ (endpoint w)) = true).
  { unfold ptr_neq. apply orb_true_iff. destruct Hdiff as [Hd|Hd]; [left|right];
      apply negb_true_iff, Nat.eqb_neq; exact Hd. }
  destruct_world w. subst.
  unfold DetachFromChannel_locked, bind, get, ret in H. cbn in H.
  destruct channel_0 as [ch|].
  - rewrite ResetChannelNoLock_eval in H. cbn in H. break_hyps.
    eexists. eexists. split; [reflexivity|].
    rewrite ReplaceClient_eval. cbn. rewrite Hneq. cbn.
    repeat split.
  - unfold DCHECK in H. destruct is_detached_from_channel_0; [|discriminate H].
    inversion H; subst; clear H.
    eexists. eexists. split; [reflexivity|].
    rewrite ReplaceClient_eval. cbn. rewrite Hneq. cbn.
    repeat split.
Qed.

End ClientAxis.

Section ReadAlone.

Variable env : Collaborators.

Lemma OnReadMessage_step_top (f : ReadFrame) (w : World) (ch : Channel)
  (c : ChannelEndpointClient) :
  rd_pc f = AtLoopTop ->
  channel_ (endpoint w) = Some ch ->
  client_ (endpoint w) = Some c ->
  OnReadMessage_step env f w =
    if ptr_neq (Some c) (rd_client f)
       || negb (Nat.eqb (client_port_ (endpoint w)) (rd_client_port f))
    then Returned (MkReadFrame (rd_message f) (Some c) (client_port_ (endpoint w))
                     AtClientCall) w
    else DcheckFailed 121.
Proof.
  intros Hpc Hch Hc. unfold OnReadMessage_step. rewrite Hpc.
  unfold bind, get, ret, DCHECK. rewrite Hch, Hc. cbn [is_some negb orb].
  destruct (ptr_neq (Some c) (rd_client f)
            || negb (client_port_ (endpoint w) =? rd_client_port f)); reflexivity.
Qed.

Lemma OnReadMessage_step_call (f : ReadFrame) (w : World) (c : ChannelEndpointClient) :
  rd_pc f = AtClientCall ->
  rd_client f = Some c ->
  OnReadMessage_step env f w =
    let accepted := Client_OnReadMessage env (trace w) c (rd_client_port f) (rd_message f) in
    Returned (at_pc (if accepted then ReadReturned true else AtYield) f)
      (MkWorld (endpoint w)
         (trace w ++ [ClientOnReadMessage c (rd_client_port f) (rd_message f) accepted])).
Proof.
  intros Hpc Hc. unfold OnReadMessage_step. rewrite Hpc, Hc.
  unfold bind, history, emit, ret. cbn.
  destruct (Client_OnReadMessage env (trace w) c (rd_client_port f) (rd_message f));
    reflexivity.
Qed.

Lemma OnReadMessage_step_yield (f : ReadFrame) (w : World) :
  rd_pc f = AtYield ->
  OnReadMessage_step env f w =
    Returned (at_pc AtLoopTop f) (MkWorld (endpoint w) (trace w ++ [YieldCurrentThread])).
Proof.
  intros Hpc. unfold OnReadMessage_step. rewrite Hpc. reflexivity.
Qed.

(** Two rounds of the loop run alone: the snapshot, the client's answer. *)
Lemma OnReadMessage_first_round (fuel : nat) (message : MessageInTransit) (w : World)
  (ch : Channel) (c : ChannelEndpointClient) :
  channel_ (endpoint w) = Some ch ->
  client_ (endpoint w) = Some c ->
  OnReadMessage env (S (S fuel)) message w =
    OnReadMessage_loop env fuel
      (MkReadFrame message (Some c) (client_port_ (endpoint w))
         (if Client_OnReadMessage env (trace w) c (client_port_ (endpoint w)) message
          then ReadReturned true else AtYield))
      (MkWorld (endpoint w)
         (trace w ++ [ClientOnReadMessage c (client_port_ (endpoint w)) message
                        (Client_OnReadMessage env (trace w) c
                           (client_port_ (endpoint w)) message)])).
Proof.
  intros Hch Hc. unfold OnReadMessage.
  cbn [OnReadMessage_loop OnReadMessage_enter rd_pc]. unfold bind at 1.
  rewrite (OnReadMessage_step_top (OnReadMessage_enter message) w ch c
             eq_refl Hch Hc).
  unfold OnReadMessage_enter. cbn [rd_client rd_client_port rd_message].
  unfold ptr_neq. cbn [orb rd_pc]. unfold bind at 1.
  rewrite (OnReadMessage_step_call
             (MkReadFrame message (Some c) (client_port_ (endpoint w)) AtClientCall)
             w c eq_refl eq_refl).
  cbv zeta. cbn [rd_client_port rd_message at_pc rd_client]. reflexivity.
Qed.

(** X12: run with no other thread in between, on an endpoint with a channel
    and a client that accepts, [OnReadMessage] returns after one round: it
    calls the current client once, with the current port and the message, and
    changes no field of the endpoint. *)
Theorem OnReadMessage_delivers_to_current_client
  (fuel : nat) (message : MessageInTransit) (w : World)
  (ch : Channel) (c : ChannelEndpointClient) :
  channel_ (endpoint w) = Some ch ->
  client_ (endpoint w) = Some c ->
  Client_OnReadMessage env (trace w) c (client_port_ (endpoint w)) message = true ->
  OnReadMessage env (S (S fuel)) message w =
    Returned true
      (MkWorld (endpoint w)
         (trace w ++ [ClientOnReadMessage c (client_port_ (endpoint w)) message true])).
Proof.
  intros Hch Hc Hok. rewrite (OnReadMessage_first_round fuel message w ch c Hch Hc).
  rewrite Hok. destruct fuel; reflexivity.
Qed.

(** X13: a client may answer false only if it has been replaced.  Run with no
    other thread in between, on an endpoint with a channel and a client that
    refuses the message, [OnReadMessage] yields, finds the same client and
    port in its second round and stops at the assertion of line 121. *)
Theorem OnReadMessage_refused_by_current_client
  (fuel : nat) (message : MessageInTransit) (w : World)
  (ch : Channel) (c : ChannelEndpointClient) :
  channel_ (endpoint w) = Some ch ->
  client_ (endpoint w) = Some c ->
  Client_OnReadMessage env (trace w) c (client_port_ (endpoint w)) message = false ->
  OnReadMessage env (S (S (S (S fuel)))) message w = DcheckFailed 121.
Proof.
  intros Hch Hc Hok. rewrite (OnReadMessage_first_round _ message w ch c Hch Hc).
  rewrite Hok. cbn [OnReadMessage_loop rd_pc]. unfold bind at 1.
  rewrite OnReadMessage_step_yield by reflexivity.
  cbn [at_pc rd_pc rd_message rd_client rd_client_port endpoint trace].
  unfold bind at 1.
  match goal with
  | |- context [OnReadMessage_step env ?f ?w1] =>
      rewrite (OnReadMessage_step_top f w1 ch c eq_refl Hch Hc)
  end.
  cbn [at_pc rd_client rd_client_port endpoint]. unfold ptr_neq.
  rewrite !Nat.eqb_refl. reflexivity.
Qed.

(** X14: run with no other thread in between, [OnReadMessage] returns in two
    ways only.  It returns false without having done anything, and then the
    endpoint had no channel or no client; or it returns true, and then it
    made one call, to the endpoint's client with the endpoint's port, and that
    call is all it added to the trace.  It never changes a field of the
    endpoint. *)
Theorem OnReadMessage_alone_drops_or_delivers
  (fuel : nat) (message : MessageInTransit) (w w' : World) (consumed : bool) :
  OnReadMessage env fuel message w = Returned consumed w' ->
  endpoint w' = endpoint w
  /\ if consumed
     then exists c,
         client_ (endpoint w) = Some c
         /\ channel_ (endpoint w) <> None
         /\ trace w' = trace w ++ [ClientOnReadMessage c (client_port_ (endpoint w))
                                     message true]
     else w' = w /\ unreachable (endpoint w) = true.
Proof.
  intros H.
  destruct (unreachable (endpoint w)) eqn:Hu.
  - destruct fuel as [|fuel]; [discriminate H|].
    unfold OnReadMessage in H. cbn [OnReadMessage_loop OnReadMessage_enter rd_pc] in H.
    unfold bind in H.
    rewrite OnReadMessage_step_unreachable in H by (reflexivity || assumption).
    cbn [at_pc rd_pc] in H.
    assert (Hres : Returned false w = Returned consumed w').
    { destruct fuel; exact H. }
    inversion Hres; subst. auto.
  - unfold unreachable in Hu. apply orb_false_iff in Hu. destruct Hu as [Hch Hc].
    apply negb_false_iff in Hch, Hc.
    destruct (channel_ (endpoint w)) as [ch|] eqn:Hch'; [|discriminate Hch].
    destruct (client_ (endpoint w)) as [c|] eqn:Hc'; [|discriminate Hc].
    destruct fuel as [|[|fuel]].
    + discriminate H.
    + unfold OnReadMessage in H.
      cbn [OnReadMessage_loop OnReadMessage_enter rd_pc] in H. unfold bind in H.
      rewrite (OnReadMessage_step_top (OnReadMessage_enter message) w ch c
                 eq_refl Hch' Hc') in H.
      cbn in H. discriminate H.
    + destruct (Client_OnReadMessage env (trace w) c (client_port_ (endpoint w)) message)
        eqn:Hok.
      * rewrite (OnReadMessage_delivers_to_current_client fuel message w ch c Hch' Hc' Hok)
          in H.
        inversion H; subst. cbn [endpoint trace]. split; [reflexivity|].
        exists c. repeat split. discriminate.
      * exfalso. destruct fuel as [|[|fuel]].
        -- rewrite (OnReadMessage_first_round 0 message w ch c Hch' Hc'), Hok in H.
           discriminate H.
        -- rewrite (OnReadMessage_first_round 1 message w ch c Hch' Hc'), Hok in H.
           discriminate H.
        -- rewrite (OnReadMessage_refused_by_current_client fuel message w ch c Hch' Hc' Hok)
             in H.
           discriminate H.
Qed.

End ReadAlone.

(** ** The added properties on concrete runs *)

Lemma ids_match_channel_always_witness :
  exists (f' : ReadFrame) (w : World),
    ChannelEndpoint_ctor (Some 1) 0 None = Returned tt fresh_endpoint
    /\ run_schedule accepting attach_read_detach (OnReadMessage_enter (msg 9))
         fresh_endpoint = Returned f' w
    /\ ids_match_channel (endpoint w) = true.
Proof.
  eexists. eexists. split; [reflexivity|]. split; [reflexivity|].
  apply (ids_match_channel_always accepting (Some 1) 0 None attach_read_detach
           (OnReadMessage_enter (msg 9)) _ fresh_endpoint _ eq_refl eq_refl).
Defined.

Lemma latch_never_cleared_witness :
  is_detached_from_channel_ (endpoint channel_gone) = true
  /\ exists (f' : ReadFrame) (w' : World),
       run_schedule accepting
         [OtherThread (CallReplaceClient (Some 2) 1); ReaderTurn;
          OtherThread (CallEnqueueMessage (Some (msg 3)))]
         (OnReadMessage_enter (msg 9)) channel_gone = Returned f' w'
       /\ is_detached_from_channel_ (endpoint w') = true.
Proof.
  split; [reflexivity|]. eexists. eexists. split; [reflexivity|].
  apply (latch_never_cleared accepting
           [OtherThread (CallReplaceClient (Some 2) 1); ReaderTurn;
            OtherThread (CallEnqueueMessage (Some (msg 3)))]
           (OnReadMessage_enter (msg 9)) _ channel_gone _ eq_refl eq_refl).
Defined.

Lemma queue_empty_while_attached_witness :
  exists (f' : ReadFrame) (w : World),
    run_schedule accepting attach_and_read (OnReadMessage_enter (msg 9))
      fresh_endpoint = Returned f' w
    /\ channel_ (endpoint w) = Some 7
    /\ channel_message_queue_ (endpoint w) = [].
Proof.
  eexists. eexists. split; [reflexivity|]. split; [reflexivity|].
  apply (queue_empty_while_attached accepting (Some 1) 0 None attach_and_read
           (OnReadMessage_enter (msg 9)) _ fresh_endpoint _ 7 eq_refl eq_refl eq_refl).
Defined.

Lemma messages_written_or_queued_witness :
  exists (f' : ReadFrame) (w' : World),
    run_schedule failing_channel attach_read_detach (OnReadMessage_enter (msg 9))
      fresh_endpoint = Returned f' w'
    /\ length (channel_writes (trace w')) + length (channel_message_queue_ (endpoint w'))
       = 2.
Proof.
  eexists. eexists. split; [reflexivity|].
  apply (messages_written_or_queued failing_channel attach_read_detach
           (OnReadMessage_enter (msg 9)) _ fresh_endpoint _ eq_refl).
Defined.

Lemma DetachEndpoint_at_most_once_per_attach_witness :
  exists (f' : ReadFrame) (w : World),
    run_schedule accepting attach_read_detach (OnReadMessage_enter (msg 9))
      fresh_endpoint = Returned f' w
    /\ length (detach_endpoint_calls (trace w)) + registrations (endpoint w) <= 1.
Proof.
  eexists. eexists. split; [reflexivity|].
  apply (DetachEndpoint_at_most_once_per_attach accepting (Some 1) 0 None
           attach_read_detach (OnReadMessage_enter (msg 9)) _ fresh_endpoint _
           eq_refl eq_refl).
Defined.

Lemma channel_calls_carry_valid_ids_witness :
  forallb routed (trace fresh_endpoint) = true
  /\ exists (f' : ReadFrame) (w' : World),
       run_schedule accepting attach_read_detach (OnReadMessage_enter (msg 9))
         fresh_endpoint = Returned f' w'
       /\ forallb routed (trace w') = true.
Proof.
  split; [reflexivity|]. eexists. eexists. split; [reflexivity|].
  apply (channel_calls_carry_valid_ids accepting attach_read_detach
           (OnReadMessage_enter (msg 9)) _ fresh_endpoint _ eq_refl eq_refl).
Defined.

Lemma no_client_after_DetachFromClient_witness :
  DetachFromClient attached_endpoint = Returned tt client_gone
  /\ exists w2 : World,
       run_calls accepting [CallEnqueueMessage (Some (msg 3))] client_gone = Returned tt w2
       /\ client_ (endpoint w2) = None
       /\ ReplaceClient (Some 2) 0 w2 = DcheckFailed 51.
Proof.
  split; [reflexivity|]. eexists. split; [reflexivity|].
  destruct (no_client_after_DetachFromClient accepting attached_endpoint client_gone _
              [CallEnqueueMessage (Some (msg 3))] (Some 2) 0 eq_refl eq_refl)
    as (H1 & H2 & _).
  split; [exact H1 | exact H2].
Defined.

Lemma destructor_passes_after_DetachFromClient_witness :
  ids_match_channel (endpoint attached_endpoint) = true
  /\ DetachFromClient attached_endpoint = Returned tt client_gone
  /\ ChannelEndpoint_dtor client_gone = Returned tt client_gone.
Proof.
  split; [reflexivity|]. split; [reflexivity|].
  apply (destructor_passes_after_DetachFromClient accepting attached_endpoint
           client_gone client_gone [] eq_refl eq_refl eq_refl).
Defined.

Lemma destructor_fails_while_client_attached_witness :
  client_ (endpoint attached_endpoint) = Some 1
  /\ DetachFromChannel attached_endpoint = Returned tt channel_gone
  /\ ChannelEndpoint_dtor channel_gone = DcheckFailed 168.
Proof.
  split; [reflexivity|]. split; [reflexivity|].
  apply (destructor_fails_while_client_attached attached_endpoint channel_gone 1
           eq_refl eq_refl).
Defined.

Lemma queue_only_endpoint_flushes_and_detaches_witness :
  is_valid id1 = true
  /\ is_valid id2 = true
  /\ exists w1 : World,
       AttachAndRun failing_channel (Some 7) id1 id2 queued_endpoint = Returned tt w1
       /\ detach_endpoint_calls (trace w1) = [(7, id1, id2)]
       /\ ChannelEndpoint_dtor w1 = Returned tt w1.
Proof.
  split; [reflexivity|]. split; [reflexivity|].
  destruct (queue_only_endpoint_flushes_and_detaches failing_channel
              [msg 10; msg 11] 0 7 id1 id2 eq_refl eq_refl)
    as (w0 & w1 & H0 & H1 & _ & _ & H4 & _ & H6).
  injection H0 as H0. subst w0.
  exists w1. split; [exact H1|]. split; [exact H4 | exact H6].
Defined.

Lemma DetachFromChannel_notifies_the_snapshot_witness :
  DetachFromChannel_locked attached_endpoint =
    Returned (Some 1, 0) (MkWorld (endpoint channel_gone) [])
  /\ exists w2 w3 : World,
       ReplaceClient (Some 2) 1 (MkWorld (endpoint channel_gone) []) = Returned false w2
       /\ DetachFromChannel_notify (Some 1, 0) w2 = Returned tt w3
       /\ client_ (endpoint w3) = Some 2
       /\ trace w3 = [ClientOnDetachFromChannel 1 0].
Proof.
  split; [reflexivity|].
  destruct (DetachFromChannel_notifies_the_snapshot attached_endpoint
              (MkWorld (endpoint channel_gone) []) 1 2 1 (Some 1, 0) eq_refl eq_refl)
    as (w2 & w3 & _ & H2 & H3 & _ & H5 & H6 & H7).
  { left. discriminate. }
  exists w2, w3. split; [exact H2|]. split; [exact H5|].
  split; [rewrite H6; exact H3 | exact H7].
Defined.

Lemma OnReadMessage_delivers_to_current_client_witness :
  channel_ (endpoint attached_endpoint) = Some 7
  /\ client_ (endpoint attached_endpoint) = Some 1
  /\ OnReadMessage accepting 2 (msg 9) attached_endpoint =
       Returned true
         (MkWorld (endpoint attached_endpoint) [ClientOnReadMessage 1 0 (msg 9) true]).
Proof.
  split; [reflexivity|]. split; [reflexivity|].
  apply (OnReadMessage_delivers_to_current_client accepting 0 (msg 9) attached_endpoint
           7 1 eq_refl eq_refl eq_refl).
Defined.

Lemma OnReadMessage_refused_by_current_client_witness :
  Client_OnReadMessage client_2_only (trace attached_endpoint) 1 0 (msg 9) = false
  /\ OnReadMessage client_2_only 4 (msg 9) attached_endpoint = DcheckFailed 121.
Proof.
  split; [reflexivity|].
  apply (OnReadMessage_refused_by_current_client client_2_only 0 (msg 9)
           attached_endpoint 7 1 eq_refl eq_refl eq_refl).
Defined.

Lemma OnReadMessage_alone_drops_or_delivers_witness :
  OnReadMessage accepting 5 (msg 9) client_gone = Returned false client_gone
  /\ unreachable (endpoint client_gone) = true.
Proof.
  split; [reflexivity|].
  destruct (OnReadMessage_alone_drops_or_delivers accepting 5 (msg 9) client_gone
              client_gone false eq_refl) as (_ & _ & H).
  exact H.
Defined.

(** ** The channel side once more *)

Section ChannelAxis.

Variable env : Collaborators.

(** X15: [DetachFromChannel] needs an attachment to undo.  On an endpoint
    whose fields are consistent, it stops at the assertion of line 155 when
    the endpoint has never been attached, and in every other state it returns
    and leaves the endpoint detached. *)
Theorem DetachFromChannel_needs_an_attach (w : World) :
  ids_match_channel (endpoint w) = true ->
  latch_respected (endpoint w) = true ->
  (Unattached (endpoint w) -> DetachFromChannel w = DcheckFailed 155)
  /\ (~ Unattached (endpoint w) ->
      exists w' : World,
        DetachFromChannel w = Returned tt w'
        /\ Detached (endpoint w')
        /\ client_ (endpoint w') = client_ (endpoint w)
        /\ channel_message_queue_ (endpoint w') = channel_message_queue_ (endpoint w)).
Proof.
  intros Hids Hlatch. rewrite DetachFromChannel_eval. split.
  - intros (Hch & _ & _ & Hd). rewrite Hch, Hd. reflexivity.
  - intros Hnot. destruct (channel_ (endpoint w)) as [ch|] eqn:Hch.
    + destruct (ids_match_attached _ _ Hids Hch) as [Hl Hr].
      rewrite Hl, Hr, (latch_respected_attached _ _ Hlatch Hch). cbn [negb].
      eexists. split; [reflexivity|]. cbn. repeat split.
    + destruct (ids_match_unattached _ Hids Hch) as [Hl Hr].
      destruct (is_detached_from_channel_ (endpoint w)) eqn:Hd.
      * eexists. split; [reflexivity|]. cbn. repeat split; assumption.
      * exfalso. apply Hnot. repeat split; assumption.
Qed.

Lemma detach_notifications_drain_events (ch : Channel) (l r : ChannelEndpointId)
  (q : list MessageInTransit) :
  forall tr, detach_notifications (drain_events env tr ch l r q) = [].
Proof.
  induction q as [|m q IH]; intros tr; [reflexivity|].
  cbn [drain_events]. rewrite detach_notifications_app, IH.
  destruct (Channel_WriteMessage env tr ch (stamp env ch l r m)); reflexivity.
Qed.

Lemma length_detach_notifications_detach_notice (ep : ChannelEndpoint) :
  length (detach_notifications (detach_notice ep)) <= 1.
Proof. unfold detach_notice. destruct (client_ ep); cbn; lia. Qed.

Lemma run_call_notifies_on_DetachFromChannel_only (c : Call) (w w' : World) :
  run_call env c w = Returned tt w' ->
  length (detach_notifications (trace w')) <=
    length (detach_notifications (trace w)) + (if is_DetachFromChannel c then 1 else 0).
Proof.
  intros H. destruct c; call_cases H; cbn [is_DetachFromChannel trace];
    rewrite ?detach_notifications_app, ?length_app, ?detach_notifications_drain_events;
    try (pose proof (length_detach_notifications_detach_notice (endpoint w)));
    repeat match goal with
           | |- context [match ?x with _ => _ end] => destruct x
           end;
    cbn [detach_notifications length app]; lia.
Qed.

(** X16: only [DetachFromChannel] tells the client that the channel is gone,
    and at most once per call.  Over every interleaving of calls and reads
    the number of [OnDetachFromChannel] calls grows by at most the number of
    [DetachFromChannel] calls; [DetachFromClient], [AttachAndRun],
    [EnqueueMessage], [ReplaceClient] and reads never notify. *)
Theorem OnDetachFromChannel_only_from_DetachFromChannel (s : list Turn) :
  forall (f f' : ReadFrame) (w w' : World),
    run_schedule env s f w = Returned f' w' ->
    length (detach_notifications (trace w')) <=
      length (detach_notifications (trace w))
      + count_calls is_DetachFromChannel (calls_of s).
Proof.
  unfold count_calls.
  induction s as [|t s IH]; intros f f' w w' H.
  - cbn in H. inversion H; subst. cbn. lia.
  - destruct t as [|c]; cbn [run_schedule calls_of] in *; unfold bind in H.
    + destruct (OnReadMessage_step env f w) as [f1 w1| |] eqn:H1; try discriminate H.
      apply IH in H. apply (OnReadMessage_step_trace env) in H1.
      destruct H1 as [_ [Ht | [(c & port & m & ok & Ht) | Ht]]];
        rewrite Ht in H; rewrite ?detach_notifications_app in H;
        cbn in H; rewrite ?app_nil_r in H; exact H.
    + destruct (run_call env c w) as [[] w1| |] eqn:H1; try discriminate H.
      apply IH in H. apply run_call_notifies_on_DetachFromChannel_only in H1.
      cbn [filter]. destruct (is_DetachFromChannel c); cbn [length]; lia.
Qed.

End ChannelAxis.

Lemma DetachFromChannel_needs_an_attach_witness :
  ids_match_channel (endpoint fresh_endpoint) = true
  /\ latch_respected (endpoint fresh_endpoint) = true
  /\ DetachFromChannel fresh_endpoint = DcheckFailed 155.
Proof.
  split; [reflexivity|]. split; [reflexivity|].
  apply (proj1 (DetachFromChannel_needs_an_attach fresh_endpoint eq_refl eq_refl)).
  exact fresh_endpoint_Unattached.
Defined.

Lemma OnDetachFromChannel_only_from_DetachFromChannel_witness :
  exists (f' : ReadFrame) (w' : World),
    run_schedule accepting attach_read_detach (OnReadMessage_enter (msg 9))
      fresh_endpoint = Returned f' w'
    /\ length (detach_notifications (trace w')) <= 0.
Proof.
  eexists. eexists. split; [reflexivity|].
  apply (OnDetachFromChannel_only_from_DetachFromChannel accepting attach_read_detach
           (OnReadMessage_enter (msg 9)) _ fresh_endpoint _ eq_refl).
Defined.

(** ** Reads and sends across a second attach *)

(** C9 on the code: right after [DetachFromChannel] a read is dropped without
    any effect, as the claim says.  But [AttachAndRun] does not look at the
    latch (see [AttachAndRun_ignores_latch]): called again it passes its
    [DCHECK]s and attaches the detached endpoint, and the [OnReadMessage] that
    follows this detach is no no-op: it calls client 1, the client accepts,
    and the message is delivered. *)
Theorem OnReadMessage_delivers_after_reattach :
  run_calls accepting [CallAttachAndRun (Some 7) id1 id2; CallDetachFromChannel]
    fresh_endpoint = Returned tt channel_gone
  /\ OnReadMessage accepting 2 (msg 9) channel_gone = Returned false channel_gone
  /\ AttachAndRun accepting (Some 7) id3 id4 channel_gone = Returned tt reattached_endpoint
  /\ is_detached_from_channel_ (endpoint reattached_endpoint) = true
  /\ OnReadMessage accepting 2 (msg 9) reattached_endpoint =
       Returned true
         (MkWorld (endpoint reattached_endpoint)
            [ClientOnDetachFromChannel 1 0; ClientOnReadMessage 1 0 (msg 9) true])
  /\ deliveries [ClientOnDetachFromChannel 1 0; ClientOnReadMessage 1 0 (msg 9) true] =
       [(1, 0, msg 9)].
Proof. repeat split. Qed.

(** C10 on the code: on the detached endpoint [EnqueueMessage] returns true
    and queues message 4, as the claim says.  But the endpoint can be attached
    again: a second [AttachAndRun] passes its [DCHECK]s, drains the queue and
    writes message 4 to channel 7, stamped with the new ids 3 and 4. *)
Theorem EnqueueMessage_after_detach_written_on_reattach :
  run_calls accepting [CallAttachAndRun (Some 7) id1 id2; CallDetachFromChannel]
    fresh_endpoint = Returned tt channel_gone
  /\ Detached (endpoint channel_gone)
  /\ EnqueueMessage accepting (Some (msg 4)) channel_gone =
       Returned true
         (MkWorld (with_queue [msg 4] (endpoint channel_gone)) (trace channel_gone))
  /\ AttachAndRun accepting (Some 7) id3 id4
       (MkWorld (with_queue [msg 4] (endpoint channel_gone)) (trace channel_gone)) =
       Returned tt
         (MkWorld (endpoint reattached_endpoint)
            [ClientOnDetachFromChannel 1 0;
             ChannelWriteMessage 7 (MkMessage 4 id3 id4) true])
  /\ channel_writes [ClientOnDetachFromChannel 1 0;
                     ChannelWriteMessage 7 (MkMessage 4 id3 id4) true] =
       [(7, MkMessage 4 id3 id4)]
  /\ channel_message_queue_ (endpoint reattached_endpoint) = [].
Proof. repeat split. Qed.
